(** * Ollama-Web-UI: the stream-ingestion path, embedded and verified

    A shallow embedding of
      - [services/ollamaService.ts]  ([normalizeHost], [checkConnection],
        [fetchModels], [streamChat]),
      - the [<think>] splitter of [components/ChatBubble.tsx],
      - the message accumulator of [App.tsx] ([handleSendMessage]),
      - [handleCheckConnection] and [handleSave] of
        [components/SettingsDialog.tsx], [removeImage] of
        [components/InputArea.tsx],
    followed by the properties the design specification states about them
    and by further properties read off the code.

    Conventions.  A JavaScript string is its sequence of UTF-16 code units;
    a code unit is an [N].  Promises are modelled by their outcome (resolved
    value or rejection), callbacks by the trace of their invocations. *)

From Stdlib Require Import Ascii String DecimalString DecimalZ DecimalPos.
From Stdlib Require Import NArith ZArith Bool Lia List.
Import ListNotations.
Open Scope list_scope.

(* ================================================================== *)
(** * JavaScript strings                                               *)
(* ================================================================== *)

Module JsString.

(** A string value: UTF-16 code units, in order. *)
Definition jsstring := list N.

(** Literals are written as Rocq strings and read unit by unit. *)
Definition js (s : string) : jsstring :=
  map N_of_ascii (list_ascii_of_string s).

(** The same, for literals that contain double quotes: a single quote in the
    Rocq literal stands for the code unit 34. *)
Definition jsq (s : string) : jsstring :=
  map (fun c => if N.eqb c 39 then 34%N else c) (js s).

Fixpoint eqb (a b : jsstring) : bool :=
  match a, b with
  | [], [] => true
  | x :: a', y :: b' => N.eqb x y && eqb a' b'
  | _, _ => false
  end.

(** [s.startsWith(p)]; also the anchored literal regex [/^p/]. *)
Fixpoint startsWith (p s : jsstring) : bool :=
  match p, s with
  | [], _ => true
  | x :: p', y :: s' => N.eqb x y && startsWith p' s'
  | _ :: _, [] => false
  end.

(** ECMAScript WhiteSpace and LineTerminator code units, the set that
    [String.prototype.trim] strips. *)
Definition isTrimSpace (c : N) : bool :=
  ((9 <=? c) && (c <=? 13) || (c =? 32) || (c =? 160) || (c =? 5760)
   || (8192 <=? c) && (c <=? 8202) || (c =? 8232) || (c =? 8233)
   || (c =? 8239) || (c =? 8287) || (c =? 12288) || (c =? 65279))%N.

Fixpoint trimStart (s : jsstring) : jsstring :=
  match s with
  | c :: s' => if isTrimSpace c then trimStart s' else s
  | [] => []
  end.

Definition trimEnd (s : jsstring) : jsstring := rev (trimStart (rev s)).

(** [s.trim()] *)
Definition trim (s : jsstring) : jsstring := trimEnd (trimStart s).

(** [s.split('\n')]: the segments between line feeds; never empty, the
    empty string gives one empty segment. *)
Fixpoint split_nl (s : jsstring) : list jsstring :=
  match s with
  | [] => [[]]
  | c :: r =>
      if (c =? 10)%N then [] :: split_nl r
      else match split_nl r with
           | l :: ls => (c :: l) :: ls
           | [] => [[c]]
           end
  end.

(** First occurrence of a literal [pat] in [s]: the text before it and the
    text after it. *)
Fixpoint find_sub (pat s : jsstring) : option (jsstring * jsstring) :=
  if startsWith pat s then Some ([], skipn (length pat) s)
  else match s with
       | [] => None
       | c :: s' =>
           match find_sub pat s' with
           | Some (pre, post) => Some (c :: pre, post)
           | None => None
           end
       end.

(** [pat] occurs somewhere in [s]. *)
Definition Occurs (pat s : jsstring) : Prop :=
  exists pre post, s = pre ++ pat ++ post.

(** Decimal digits of an integer, as [Number.prototype.toString] prints an
    integral value of moderate size. *)
Definition of_Z (z : Z) : jsstring := js (NilZero.string_of_int (Z.to_int z)).
Definition of_N (n : N) : jsstring := of_Z (Z.of_N n).

End JsString.
Import JsString.

(* ================================================================== *)
(** * services/ollamaService.ts: normalizeHost                         *)
(* ================================================================== *)

(** [/^https?:\/\//] *)
Definition matches_scheme (s : jsstring) : bool :=
  startsWith (js "http://") s || startsWith (js "https://") s.

(** [s.replace(/\/$/, '')]: without the [m] flag [$] is the end of input,
    so at most the final code unit goes. *)
Definition strip_final_slash (s : jsstring) : jsstring :=
  match rev s with
  | c :: r => if (c =? 47)%N then rev r else s
  | [] => s
  end.

(** The scheme default: [if (!normalized.match(...)) normalized = `http://${normalized}`]. *)
Definition with_scheme (normalized : jsstring) : jsstring :=
  if negb (matches_scheme normalized) then js "http://" ++ normalized
  else normalized.

Definition normalizeHost (host : jsstring) : jsstring :=
  strip_final_slash (with_scheme (trim host)).

Definition endsWith_slash (s : jsstring) : bool :=
  match rev s with
  | c :: _ => (c =? 47)%N
  | [] => false
  end.

Definition endsWith_two_slashes (s : jsstring) : bool :=
  match rev s with
  | c :: d :: _ => (c =? 47)%N && (d =? 47)%N
  | _ => false
  end.

(* ================================================================== *)
(** * components/ChatBubble.tsx: the reasoning splitter                *)
(* ================================================================== *)

Module ChatBubble.

Definition think_open : jsstring := js "<think>".
Definition think_close : jsstring := js "</think>".

(** [content.match(/<think>([\s\S]*?)(?:<\/think>|$)/)].  The match starts
    at the first [<think>]; the lazy group grows until the first
    [</think>] behind it or, failing that, the end of the text, so a text
    with an opening marker always matches.  The result is the text before
    the match, capture group 1, and the text after the match. *)
Definition thinkMatch (content : jsstring)
  : option (jsstring * jsstring * jsstring) :=
  match find_sub think_open content with
  | None => None
  | Some (before, rest) =>
      match find_sub think_close rest with
      | Some (inner, after) => Some (before, inner, after)
      | None => Some (before, rest, [])
      end
  end.

(** Step 1 of the memoised computation: [(thinkContent, mainContent)];
    [replace] with a non-global regex removes that same first match. *)
Definition splitThink (content : jsstring) : jsstring * jsstring :=
  match thinkMatch content with
  | Some (before, inner, after) => (inner, before ++ after)
  | None => ([], content)
  end.

(** The two texts that the memoised computation hands to the Markdown
    renderer and the sanitizer (both outside this development): a system
    message is shown as it is; otherwise the reasoning block exists only for
    a truthy [thinkContent] ([thinkHtml] is [null] without one). *)
Record DisplaySegments := {
  reasoningText : option jsstring;
  bodyText : jsstring
}.

Definition segments (isSystem : bool) (content : jsstring) : DisplaySegments :=
  if isSystem then {| reasoningText := None; bodyText := content |}
  else
    let '(thinkContent, mainContent) := splitThink content in
    {| reasoningText := match thinkContent with [] => None | _ => Some thinkContent end;
       bodyText := mainContent |}.

End ChatBubble.

(* ================================================================== *)
(** * JSON values and [JSON.parse]                                     *)
(* ================================================================== *)

Module Json.

(** A parsed value.  A number keeps its source text; an object keeps its
    members in source order, duplicates included. *)
#[warnings="-register-all"]
Inductive json :=
  | JNull
  | JBool (b : bool)
  | JNum (lexeme : jsstring)
  | JStr (s : jsstring)
  | JArr (items : list json)
  | JObj (members : list (jsstring * json)).

(** ** Lexical level: one code unit at a time *)

Inductive token :=
  | TLBrace | TRBrace | TLBracket | TRBracket | TColon | TComma
  | TValue (v : json).

(** Where the automaton of the number grammar stands: an optional minus,
    then a lone zero or a digit string without leading zero, then an
    optional fraction (a dot and one or more digits), then an optional
    exponent (e or E, an optional sign, one or more digits). *)
Inductive num_state :=
  | NMinus | NZero | NInt | NDot | NFrac | NExp | NExpSign | NExpDigits.

Inductive lex_state :=
  | LStart
  | LString (acc_rev : jsstring)
  | LEscape (acc_rev : jsstring)
  | LUnicode (acc_rev : jsstring) (seen : nat) (code : N)
  | LNumber (acc_rev : jsstring) (st : num_state)
  | LWord (expected : jsstring) (v : json).

Definition isJsonSpace (c : N) : bool :=
  ((c =? 9) || (c =? 10) || (c =? 13) || (c =? 32))%N.

Definition isDigit (c : N) : bool := ((48 <=? c) && (c <=? 57))%N.

Definition hexValue (c : N) : option N :=
  if isDigit c then Some (c - 48)%N
  else if ((97 <=? c) && (c <=? 102))%N then Some (c - 87)%N
  else if ((65 <=? c) && (c <=? 70))%N then Some (c - 55)%N
  else None.

Definition isExpMark (c : N) : bool := ((c =? 101) || (c =? 69))%N.

(** The number automaton: [Some (Some st)] moves on, [Some None] says the
    number ended before [c], [None] rejects. *)
Definition num_step (st : num_state) (c : N) : option (option num_state) :=
  match st with
  | NMinus => if (c =? 48)%N then Some (Some NZero)
              else if isDigit c then Some (Some NInt) else None
  | NZero => if (c =? 46)%N then Some (Some NDot)
             else if isExpMark c then Some (Some NExp) else Some None
  | NInt => if isDigit c then Some (Some NInt)
            else if (c =? 46)%N then Some (Some NDot)
            else if isExpMark c then Some (Some NExp) else Some None
  | NDot => if isDigit c then Some (Some NFrac) else None
  | NFrac => if isDigit c then Some (Some NFrac)
             else if isExpMark c then Some (Some NExp) else Some None
  | NExp => if ((c =? 43) || (c =? 45))%N then Some (Some NExpSign)
            else if isDigit c then Some (Some NExpDigits) else None
  | NExpSign => if isDigit c then Some (Some NExpDigits) else None
  | NExpDigits => if isDigit c then Some (Some NExpDigits) else Some None
  end.

Definition num_accepting (st : num_state) : bool :=
  match st with
  | NZero | NInt | NFrac | NExpDigits => true
  | _ => false
  end.

(** A code unit met between tokens. *)
Definition start_step (c : N) : option (lex_state * list token) :=
  if isJsonSpace c then Some (LStart, [])
  else if (c =? 123)%N then Some (LStart, [TLBrace])
  else if (c =? 125)%N then Some (LStart, [TRBrace])
  else if (c =? 91)%N then Some (LStart, [TLBracket])
  else if (c =? 93)%N then Some (LStart, [TRBracket])
  else if (c =? 58)%N then Some (LStart, [TColon])
  else if (c =? 44)%N then Some (LStart, [TComma])
  else if (c =? 34)%N then Some (LString [], [])
  else if (c =? 45)%N then Some (LNumber [c] NMinus, [])
  else if (c =? 48)%N then Some (LNumber [c] NZero, [])
  else if isDigit c then Some (LNumber [c] NInt, [])
  else if (c =? 116)%N then Some (LWord (js "rue") (JBool true), [])
  else if (c =? 102)%N then Some (LWord (js "alse") (JBool false), [])
  else if (c =? 110)%N then Some (LWord (js "ull") JNull, [])
  else None.

Definition escape_step (acc : jsstring) (c : N) : option lex_state :=
  if (c =? 34)%N then Some (LString (34%N :: acc))
  else if (c =? 92)%N then Some (LString (92%N :: acc))
  else if (c =? 47)%N then Some (LString (47%N :: acc))
  else if (c =? 98)%N then Some (LString (8%N :: acc))
  else if (c =? 102)%N then Some (LString (12%N :: acc))
  else if (c =? 110)%N then Some (LString (10%N :: acc))
  else if (c =? 114)%N then Some (LString (13%N :: acc))
  else if (c =? 116)%N then Some (LString (9%N :: acc))
  else if (c =? 117)%N then Some (LUnicode acc 0 0%N)
  else None.

Definition lex_step (st : lex_state) (c : N) : option (lex_state * list token) :=
  match st with
  | LStart => start_step c
  | LString acc =>
      if (c =? 34)%N then Some (LStart, [TValue (JStr (rev acc))])
      else if (c =? 92)%N then Some (LEscape acc, [])
      else if (c <? 32)%N then None
      else Some (LString (c :: acc), [])
  | LEscape acc =>
      match escape_step acc c with
      | Some st' => Some (st', [])
      | None => None
      end
  | LUnicode acc seen code =>
      match hexValue c with
      | Some d =>
          let code' := (code * 16 + d)%N in
          if Nat.eqb seen 3 then Some (LString (code' :: acc), [])
          else Some (LUnicode acc (S seen) code', [])
      | None => None
      end
  | LNumber acc nst =>
      match num_step nst c with
      | Some (Some nst') => Some (LNumber (c :: acc) nst', [])
      | Some None =>
          match start_step c with
          | Some (st', toks) => Some (st', TValue (JNum (rev acc)) :: toks)
          | None => None
          end
      | None => None
      end
  | LWord expected v =>
      match expected with
      | x :: rest =>
          if (c =? x)%N then
            match rest with
            | [] => Some (LStart, [TValue v])
            | _ => Some (LWord rest v, [])
            end
          else None
      | [] => None
      end
  end.

Definition lex_finish (st : lex_state) : option (list token) :=
  match st with
  | LStart => Some []
  | LNumber acc nst =>
      if num_accepting nst then Some [TValue (JNum (rev acc))] else None
  | _ => None
  end.

Fixpoint lex_from (st : lex_state) (s : jsstring) : option (list token) :=
  match s with
  | [] => lex_finish st
  | c :: r =>
      match lex_step st c with
      | Some (st', toks) =>
          match lex_from st' r with
          | Some ts => Some (toks ++ ts)
          | None => None
          end
      | None => None
      end
  end.

(** ** Grammar level: a pushdown automaton over tokens *)

(** An enclosing array with the items read so far, or an enclosing object
    with the members read so far and the key whose value is being read;
    both newest first. *)
Inductive frame :=
  | FArr (items_rev : list json)
  | FObj (members_rev : list (jsstring * json)) (key : jsstring).

Inductive pstate :=
  | PValue (stk : list frame)
  | PArrStart (stk : list frame)
  | PObjStart (stk : list frame)
  | PKey (members_rev : list (jsstring * json)) (stk : list frame)
  | PColon (members_rev : list (jsstring * json)) (key : jsstring)
           (stk : list frame)
  | PAfter (v : json) (stk : list frame).

Definition value_step (stk : list frame) (t : token) : option pstate :=
  match t with
  | TValue v => Some (PAfter v stk)
  | TLBracket => Some (PArrStart stk)
  | TLBrace => Some (PObjStart stk)
  | _ => None
  end.

Definition parse_step (st : pstate) (t : token) : option pstate :=
  match st with
  | PValue stk => value_step stk t
  | PArrStart stk =>
      match t with
      | TRBracket => Some (PAfter (JArr []) stk)
      | _ => value_step (FArr [] :: stk) t
      end
  | PObjStart stk =>
      match t with
      | TRBrace => Some (PAfter (JObj []) stk)
      | TValue (JStr k) => Some (PColon [] k stk)
      | _ => None
      end
  | PKey ms stk =>
      match t with
      | TValue (JStr k) => Some (PColon ms k stk)
      | _ => None
      end
  | PColon ms k stk =>
      match t with
      | TColon => Some (PValue (FObj ms k :: stk))
      | _ => None
      end
  | PAfter v stk =>
      match stk, t with
      | FArr items :: stk', TComma => Some (PValue (FArr (v :: items) :: stk'))
      | FArr items :: stk', TRBracket => Some (PAfter (JArr (rev (v :: items))) stk')
      | FObj ms k :: stk', TComma => Some (PKey ((k, v) :: ms) stk')
      | FObj ms k :: stk', TRBrace => Some (PAfter (JObj (rev ((k, v) :: ms))) stk')
      | _, _ => None
      end
  end.

Fixpoint parse_from (st : pstate) (ts : list token) : option json :=
  match ts with
  | [] => match st with PAfter v [] => Some v | _ => None end
  | t :: r =>
      match parse_step st t with
      | Some st' => parse_from st' r
      | None => None
      end
  end.

(** [JSON.parse(text)] without a reviver; [None] is the thrown
    [SyntaxError]. *)
Definition JSON_parse (text : jsstring) : option json :=
  match lex_from LStart text with
  | Some ts => parse_from (PValue []) ts
  | None => None
  end.

(** ** The JavaScript view of a parsed value *)

(** The decimal a number lexeme denotes: [(-1)^neg * mant * 10^exp10]. *)
Record decimal := { neg : bool; mant : N; exp10 : Z }.

Fixpoint read_digits (s : jsstring) (acc : N) : N :=
  match s with
  | c :: r => if isDigit c then read_digits r (acc * 10 + (c - 48))%N else acc
  | [] => acc
  end.

Definition read_exponent (s : jsstring) : Z :=
  match s with
  | c :: r =>
      if (c =? 45)%N then (- Z.of_N (read_digits r 0))%Z
      else if (c =? 43)%N then Z.of_N (read_digits r 0)
      else Z.of_N (read_digits s 0)
  | [] => 0%Z
  end.

Fixpoint read_number (s : jsstring) (sign : bool) (m : N) (frac : Z)
                     (infrac : bool) : decimal :=
  match s with
  | [] => {| neg := sign; mant := m; exp10 := (- frac)%Z |}
  | c :: r =>
      if isDigit c then
        read_number r sign (m * 10 + (c - 48))%N
                    (if infrac then (frac + 1)%Z else frac) infrac
      else if (c =? 46)%N then read_number r sign m frac true
      else if (c =? 45)%N then read_number r true m frac infrac
      else {| neg := sign; mant := m; exp10 := (read_exponent r - frac)%Z |}
  end.

Definition decimal_of (lexeme : jsstring) : decimal :=
  read_number lexeme false 0%N 0%Z false.

(** The double nearest to the decimal is a zero: the decimal is zero or at
    most [2^-1075], half the least subnormal (the tie rounds to even). *)
Definition rounds_to_zero (d : decimal) : bool :=
  (mant d =? 0)%N
  || ((exp10 d <? 0)%Z
      && (Z.of_N (mant d) * 2 ^ 1075 <=? 10 ^ (- exp10 d))%Z).

(** [ToBoolean] *)
Definition truthy (v : json) : bool :=
  match v with
  | JNull => false
  | JBool b => b
  | JNum lexeme => negb (rounds_to_zero (decimal_of lexeme))
  | JStr s => match s with [] => false | _ => true end
  | JArr _ | JObj _ => true
  end.

(** ** Number values and [Number.prototype.toString]

    A positive rational is a pair of positive integers, numerator and
    denominator; a finite positive double is [m * 2^e] with [m] below
    [2^53], kept as the pair [(m, e)] with [2^52 <= m] or [e = -1074]. *)

(** [(n / d) / 2^e] as a rational. *)
Definition scale2 (n d e : Z) : Z * Z :=
  if (0 <=? e)%Z then (n, d * 2 ^ e)%Z else (n * 2 ^ (- e), d)%Z.

(** [(n / d) / 10^q] as a rational. *)
Definition scale10 (n d q : Z) : Z * Z :=
  if (0 <=? q)%Z then (n, d * 10 ^ q)%Z else (n * 10 ^ (- q), d)%Z.

(** [floor (log2 (n / d))] *)
Definition floor_log2 (n d : Z) : Z :=
  let b := (Z.log2 n - Z.log2 d)%Z in
  let '(n', d') := scale2 n d b in
  if (d' <=? n')%Z then b else (b - 1)%Z.

(** The quotient rounded to the nearest integer, ties to the even one. *)
Definition round_half_even (n d : Z) : Z :=
  let q := (n / d)%Z in
  let r := (n mod d)%Z in
  if (2 * r <? d)%Z then q
  else if (d <? 2 * r)%Z then (q + 1)%Z
  else if Z.even q then q else (q + 1)%Z.

Inductive double :=
  | DZero
  | DFinite (m e : Z)
  | DInfinity.

(** The double nearest to the positive rational [n / d] (round to nearest,
    ties to even), as reading a numeric literal gives it. *)
Definition nearest_double (n d : Z) : double :=
  let e := Z.max (floor_log2 n d - 52) (-1074) in
  let '(n', d') := scale2 n d e in
  let m := round_half_even n' d' in
  let '(m, e) := if (m =? 2 ^ 53)%Z then (2 ^ 52, e + 1)%Z else (m, e) in
  if (m =? 0)%Z then DZero
  else if (971 <? e)%Z then DInfinity
  else DFinite m e.

Definition double_eqb (a b : double) : bool :=
  match a, b with
  | DZero, DZero | DInfinity, DInfinity => true
  | DFinite m e, DFinite m' e' => ((m =? m') && (e =? e'))%Z
  | _, _ => false
  end.

(** The rational a decimal's magnitude denotes. *)
Definition ratio_of (d : decimal) : Z * Z := scale10 (Z.of_N (mant d)) 1 (- exp10 d).

(** The [n] of the specification of [Number::toString]: the integer with
    [10^(n-1) <= v < 10^n], for the positive rational [v = vn / vd]. *)
Definition decimal_exponent (vn vd : Z) : Z :=
  let at_least (p : Z) :=
    let '(a, b) := scale10 vn vd p in (b <=? a)%Z in
  let p0 := (floor_log2 vn vd * 30103 / 100000 - 1)%Z in
  let p1 := if at_least (p0 + 1)%Z then (p0 + 1)%Z else p0 in
  let p2 := if at_least (p1 + 1)%Z then (p1 + 1)%Z else p1 in
  let p3 := if at_least (p2 + 1)%Z then (p2 + 1)%Z else p2 in
  (p3 + 1)%Z.

(** The shortest digit string [s], as an integer with its power of ten [q],
    for which [s * 10^q] reads back as the double [x = vn / vd]; among the
    strings of one length the one nearest to [x], the even one on a tie.
    [k] digits are tried for [k = digits, digits + 1, ...]. *)
Fixpoint shortest_digits (fuel : nat) (x : double) (vn vd n k : Z) : Z * Z :=
  let q := (n - k)%Z in
  let '(a, b) := scale10 vn vd q in
  let lo := (a / b)%Z in
  let hi := (lo + 1)%Z in
  let reads_back (c : Z) :=
    let '(cn, cd) := scale10 c 1 (- q) in
    (0 <? c)%Z && double_eqb (nearest_double cn cd) x in
  let r := (a mod b)%Z in
  let nearer_lo :=
    (2 * r <? b)%Z || ((2 * r =? b)%Z && Z.even lo) in
  match reads_back lo, reads_back hi with
  | true, true => if nearer_lo then (lo, q) else (hi, q)
  | true, false => (lo, q)
  | false, true => (hi, q)
  | false, false =>
      match fuel with
      | S fuel' => shortest_digits fuel' x vn vd n (k + 1)%Z
      | O => (lo, q)
      end
  end.

Fixpoint strip_zeros (rev_digits : jsstring) : jsstring :=
  match rev_digits with
  | c :: r => if (c =? 48)%N then strip_zeros r else rev_digits
  | [] => []
  end.

Definition zeros (count : Z) : jsstring := repeat 48%N (Z.to_nat count).

(** The text of a finite positive number from its digits and the position
    [n] of its decimal point, by the four cases of [Number::toString]:
    an integer up to 21 digits, a fraction with its point inside the
    digits, a fraction with up to six leading zeros, and the exponent
    forms. *)
Definition place_digits (digits : jsstring) (n : Z) : jsstring :=
  let k := Z.of_nat (length digits) in
  if ((k <=? n) && (n <=? 21))%Z then digits ++ zeros (n - k)
  else if ((0 <? n) && (n <=? 21))%Z then
    firstn (Z.to_nat n) digits ++ js "." ++ skipn (Z.to_nat n) digits
  else if ((-6 <? n) && (n <=? 0))%Z then js "0." ++ zeros (- n) ++ digits
  else
    let e := (n - 1)%Z in
    let exponent :=
      (if (e <? 0)%Z then js "e-" else js "e+") ++ of_Z (Z.abs e) in
    match digits with
    | [c] => [c] ++ exponent
    | c :: rest => [c] ++ js "." ++ rest ++ exponent
    | [] => exponent
    end.

(** [Number.prototype.toString()] of the value of a numeric literal. *)
Definition number_toString (lexeme : jsstring) : jsstring :=
  let d := decimal_of lexeme in
  if (mant d =? 0)%N then js "0" else
  let '(vn0, vd0) := ratio_of d in
  match nearest_double vn0 vd0 with
  | DZero => js "0"
  | DInfinity => if neg d then js "-Infinity" else js "Infinity"
  | DFinite m e =>
      let '(vn, vd) := scale2 m 1 (- e) in
      let n := decimal_exponent vn vd in
      let '(s, q) := shortest_digits 17 (DFinite m e) vn vd n 1 in
      let all_digits := of_Z s in
      let digits := rev (strip_zeros (rev all_digits)) in
      let point := (Z.of_nat (length all_digits) + q)%Z in
      (if neg d then js "-" else []) ++ place_digits digits point
  end.

(** [ToString], as string concatenation applies it to its right operand:
    an array joins its items with commas, [null] items printing as
    nothing; a plain object prints as [[object Object]].  An object with an
    own member named [toString] has no print, the concatenation throws a
    [TypeError] instead; it is printed here like a plain object, and the
    statements below that give a text in closed form are about strings. *)
Fixpoint ToString (v : json) : jsstring :=
  match v with
  | JNull => js "null"
  | JBool true => js "true"
  | JBool false => js "false"
  | JNum lexeme => number_toString lexeme
  | JStr s => s
  | JArr items =>
      (fix join (l : list json) : jsstring :=
         match l with
         | [] => []
         | x :: r =>
             (match x with JNull => [] | _ => ToString x end)
             ++ match r with [] => [] | _ => js "," ++ join r end
         end) items
  | JObj _ => js "[object Object]"
  end.

(** The last member named [k]: a repeated key overwrites. *)
Fixpoint lookup_last (k : jsstring) (ms : list (jsstring * json)) : option json :=
  match ms with
  | [] => None
  | (k', v) :: r =>
      match lookup_last k r with
      | Some w => Some w
      | None => if JsString.eqb k k' then Some v else None
      end
  end.

(** The outcome of evaluating an expression that may throw. *)
Inductive completion (A : Type) :=
  | Normal (a : A)
  | Throws.
Arguments Normal {A} a.
Arguments Throws {A}.

(** The property read [v.k] for a key that no prototype defines (the service
    reads [message], [content] and [done]): [None] is [undefined]; reading a
    property of [null] throws a [TypeError]. *)
Definition get_member (v : json) (k : jsstring) : completion (option json) :=
  match v with
  | JNull => Throws
  | JObj ms => Normal (lookup_last k ms)
  | _ => Normal None
  end.

End Json.

Import Json.

(* ================================================================== *)
(** * services/ollamaService.ts: streamChat                            *)
(* ================================================================== *)

Module Service.

(** A thrown or rejected value; the callers read its [message]. *)
Record JsError := { message : jsstring }.

(** How an awaited promise settles. *)
Inductive Settled (A : Type) :=
  | Resolved (a : A)
  | Rejected (e : JsError).
Arguments Resolved {A} a.
Arguments Rejected {A} e.

(** The body as its reader delivers it: the text of each chunk, as the
    streaming [TextDecoder] returns it, then end of stream or a failed
    read. *)
Inductive StreamEnd :=
  | EndOfStream
  | ReadFails (e : JsError).

Record BodyStream := { chunks : list jsstring; ending : StreamEnd }.

Record Response := {
  status : N;
  text : Settled jsstring;        (* [await response.text()] *)
  body : option BodyStream        (* [response.body], [None] when null *)
}.

(** [response.ok]: the status is in the range 200 to 299. *)
Definition ok (r : Response) : bool :=
  ((200 <=? status r) && (status r <=? 299))%N.

Record AppSettings := {
  host : jsstring;
  selectedModel : jsstring;
  systemPrompt : jsstring
}.

Record ApiMessage := {
  api_role : jsstring;
  api_content : jsstring;
  api_images : option (list jsstring)
}.

(** The POST that [streamChat] issues; [stream: true] and the temperature
    are constants of the code. *)
Record Request := {
  url : jsstring;
  req_model : jsstring;
  req_messages : list ApiMessage
}.

(** The network and the server behind it: what [fetch] settles to. *)
Definition Server := Request -> Settled Response.

(** What a run does that the outside can see: the three callbacks, and the
    console. *)
Inductive Effect :=
  | OnChunk (chunk : json)
  | OnDone
  | OnError (err : JsError)
  | ConsoleWarn.

Definition blank (line : jsstring) : bool :=
  match trim line with [] => true | _ => false end.

(** The body of [for (const line of lines)].  A blank line is skipped.
    Everything else runs inside the inner [try]: a [SyntaxError] of
    [JSON.parse] and the [TypeError] of reading [.message] of [null] both
    end in the [catch], which only warns on the console.  The later
    [if (json.done) {}] has an empty body and cannot throw once
    [json.message] was read. *)
Definition line_effects (line : jsstring) : list Effect :=
  if blank line then []
  else match JSON_parse line with
       | None => [ConsoleWarn]
       | Some json =>
           match get_member json (js "message") with
           | Throws => [ConsoleWarn]
           | Normal None => []
           | Normal (Some m) =>
               if truthy m then
                 match get_member m (js "content") with
                 | Normal (Some c) => if truthy c then [OnChunk c] else []
                 | Normal None => []
                 | Throws => [ConsoleWarn]
                 end
               else []
           end
       end.

(** One iteration of the read loop on a delivered chunk. *)
Definition chunk_effects (text : jsstring) : list Effect :=
  flat_map line_effects (split_nl text).

(** [while (true) { const { done, value } = await reader.read(); ... }] *)
Fixpoint read_loop (chunks : list jsstring) (ending : StreamEnd) : list Effect :=
  match chunks with
  | text :: rest => chunk_effects text ++ read_loop rest ending
  | [] =>
      match ending with
      | EndOfStream => [OnDone]
      | ReadFails e => [OnError e]
      end
  end.

Definition chat_request (settings : AppSettings) (messages : list ApiMessage)
  : Request :=
  {| url := normalizeHost (host settings) ++ js "/api/chat";
     req_model := selectedModel settings;
     req_messages := messages |}.

(** [new Error(`Ollama Error (${response.status}): ${errorText}`)] *)
Definition status_error (code : N) (errorText : jsstring) : JsError :=
  {| message := js "Ollama Error (" ++ of_N code ++ js "): " ++ errorText |}.

(** The whole function: every throw and rejection inside the outer [try]
    reaches [onError]. *)
Definition streamChat (server : Server) (settings : AppSettings)
                      (messages : list ApiMessage) : list Effect :=
  match server (chat_request settings messages) with
  | Rejected e => [OnError e]
  | Resolved response =>
      if negb (ok response) then
        match text response with
        | Resolved errorText => [OnError (status_error (status response) errorText)]
        | Rejected e => [OnError e]
        end
      else
        match body response with
        | None => [OnError {| message := js "No response body" |}]
        | Some stream => read_loop (chunks stream) (ending stream)
        end
  end.

(** ** Views of a run *)

(** The values [JSON.parse] returned while one chunk was processed. *)
Definition line_records (line : jsstring) : list json :=
  if blank line then []
  else match JSON_parse line with
       | Some json => [json]
       | None => []
       end.

Definition chunk_records (text : jsstring) : list json :=
  flat_map line_records (split_nl text).

(** The records decoded from a body delivered as [fragments]. *)
Definition decoded_records (fragments : list jsstring) : list json :=
  flat_map chunk_records fragments.

(** The callback invocations of a run: what its caller observes. *)
Definition is_callback (e : Effect) : bool :=
  match e with ConsoleWarn => false | _ => true end.

Definition callbacks (trace : list Effect) : list Effect :=
  filter is_callback trace.

Definition is_terminal (e : Effect) : bool :=
  match e with OnDone | OnError _ => true | _ => false end.

Definition is_done (e : Effect) : bool :=
  match e with OnDone => true | _ => false end.

Definition is_error (e : Effect) : bool :=
  match e with OnError _ => true | _ => false end.

Definition is_chunk (e : Effect) : bool :=
  match e with OnChunk _ => true | _ => false end.

Definition count (p : Effect -> bool) (trace : list Effect) : nat :=
  length (filter p trace).

(** [record.message.content] when the record has the shape of the chat
    protocol: an object whose [message] is an object whose [content] is a
    string. *)
Definition message_content (record : json) : option jsstring :=
  match record with
  | JObj ms =>
      match lookup_last (js "message") ms with
      | Some (JObj mm) =>
          match lookup_last (js "content") mm with
          | Some (JStr s) => Some s
          | _ => None
          end
      | _ => None
      end
  | _ => None
  end.

End Service.
Import Service.

(* ================================================================== *)
(** * App.tsx: the conversation state and handleSendMessage            *)
(* ================================================================== *)

Module App.

Inductive Role := user | assistant | system.

Record Message := {
  role : Role;
  content : jsstring;
  images : option (list jsstring);
  timestamp : Z;
  id : jsstring
}.

(** The two pieces of component state the exchange writes. *)
Record AppState := { messages : list Message; isLoading : bool }.

Definition role_name (r : Role) : jsstring :=
  match r with
  | user => js "user"
  | assistant => js "assistant"
  | system => js "system"
  end.

(** [{ ...msg, content: msg.content + suffix }] on the messages whose id is
    [assistantId], [msg] itself on the others: the updater both callbacks
    pass to [setMessages]. *)
Definition append_to (assistantId suffix : jsstring) (prev : list Message)
  : list Message :=
  map (fun msg =>
         if JsString.eqb (id msg) assistantId then
           {| role := role msg;
              content := content msg ++ suffix;
              images := images msg;
              timestamp := timestamp msg;
              id := id msg |}
         else msg) prev.

(** [`\n\n*[Error: ${error.message}]*`] *)
Definition error_annotation (error : JsError) : jsstring :=
  [10; 10]%N ++ js "*[Error: " ++ message error ++ js "]*".

(** The three callbacks handed to [streamChat], as state updates; a console
    warning leaves the state alone. *)
Definition apply_effect (assistantId : jsstring) (st : AppState) (e : Effect)
  : AppState :=
  match e with
  | OnChunk chunk =>
      {| messages := append_to assistantId (ToString chunk) (messages st);
         isLoading := isLoading st |}
  | OnDone => {| messages := messages st; isLoading := false |}
  | OnError error =>
      {| messages := append_to assistantId (error_annotation error) (messages st);
         isLoading := false |}
  | ConsoleWarn => st
  end.

Definition run_effects (assistantId : jsstring) (trace : list Effect)
                       (st : AppState) : AppState :=
  fold_left (apply_effect assistantId) trace st.

(** The four successive readings of [Date.now()] in [handleSendMessage]. *)
Record Clock := { now1 : Z; now2 : Z; now3 : Z; now4 : Z }.

Definition userMsg (input : jsstring) (imgs : list jsstring) (clock : Clock)
  : Message :=
  {| role := user; content := input; images := Some imgs;
     timestamp := now1 clock; id := of_Z (now2 clock) |}.

Definition assistantId (clock : Clock) : jsstring := of_Z (now3 clock + 1).

Definition assistantMsg (clock : Clock) : Message :=
  {| role := assistant; content := []; images := None;
     timestamp := now4 clock; id := assistantId clock |}.

Definition newMessages (st : AppState) (input : jsstring)
                       (imgs : list jsstring) (clock : Clock) : list Message :=
  messages st ++ [userMsg input imgs clock; assistantMsg clock].

Definition to_api (m : Message) : ApiMessage :=
  {| api_role := role_name (role m);
     api_content := content m;
     api_images := images m |}.

(** History plus the new user message, behind the system prompt if there is
    one; the empty assistant placeholder is not sent. *)
Definition apiMessages (settings : AppSettings) (st : AppState)
                       (input : jsstring) (imgs : list jsstring)
                       (clock : Clock) : list ApiMessage :=
  let history := map to_api (messages st ++ [userMsg input imgs clock]) in
  match systemPrompt settings with
  | [] => history
  | prompt =>
      {| api_role := js "system"; api_content := prompt; api_images := None |}
      :: history
  end.

(** The trace of the exchange that [handleSendMessage] starts. *)
Definition exchange (server : Server) (settings : AppSettings) (st : AppState)
                    (input : jsstring) (imgs : list jsstring) (clock : Clock)
  : list Effect :=
  streamChat server settings (apiMessages settings st input imgs clock).

Definition handleSendMessage (server : Server) (settings : AppSettings)
                             (st : AppState) (input : jsstring)
                             (imgs : list jsstring) (clock : Clock) : AppState :=
  run_effects (assistantId clock)
              (exchange server settings st input imgs clock)
              {| messages := newMessages st input imgs clock; isLoading := true |}.

(** The text of the turn the exchange writes to: the placeholder is the last
    message of the list. *)
Definition assistant_text (st : AppState) : jsstring :=
  match rev (messages st) with
  | m :: _ => content m
  | [] => []
  end.

End App.
Import App.

(* ================================================================== *)
(** * services/ollamaService.ts: checkConnection and fetchModels       *)
(* ================================================================== *)

Module Probe.

(** What a GET of a url settles to. *)
Definition GetServer := jsstring -> Settled Response.

(** [cleanHost === 'http://' || cleanHost === 'https://'] *)
Definition bare_scheme (cleanHost : jsstring) : bool :=
  JsString.eqb cleanHost (js "http://") || JsString.eqb cleanHost (js "https://").

(** The rejection of [fetch] is not caught here: it reaches the caller. *)
Definition checkConnection (server : GetServer) (host : jsstring) : Settled bool :=
  let cleanHost := normalizeHost host in
  if bare_scheme cleanHost then Resolved false
  else match server cleanHost with
       | Resolved response => Resolved (ok response)
       | Rejected e => Rejected e
       end.

(** Why a call failed: an error the code or the network raised, whose
    message is known, or a [SyntaxError] or [TypeError] of the engine, whose
    message is the engine's own. *)
Inductive Failure :=
  | Raised (e : JsError)
  | EngineError.

Inductive Outcome (A : Type) :=
  | Returns (a : A)
  | Fails (f : Failure).
Arguments Returns {A} a.
Arguments Fails {A} f.

(** [await response.json()]: the body text, parsed. *)
Definition response_json (r : Response) : Outcome json :=
  match text r with
  | Rejected e => Fails (Raised e)
  | Resolved t =>
      match JSON_parse t with
      | Some v => Returns v
      | None => Fails EngineError
      end
  end.

(** [items.map((m) => m.name)]: [None] is [undefined]; reading [.name] of
    [null] throws. *)
Fixpoint names_of (items : list json) : Outcome (list (option json)) :=
  match items with
  | [] => Returns []
  | m :: rest =>
      match get_member m (js "name") with
      | Throws => Fails EngineError
      | Normal name =>
          match names_of rest with
          | Returns names => Returns (name :: names)
          | Fails f => Fails f
          end
      end
  end.

(** [data.models.map(...)]: only an array has a [map] to call. *)
Definition model_names (data : json) : Outcome (list (option json)) :=
  match get_member data (js "models") with
  | Normal (Some (JArr items)) => names_of items
  | _ => Fails EngineError
  end.

(** The [catch] rethrows what it caught. *)
Definition fetchModels (server : GetServer) (host : jsstring)
  : Outcome (list (option json)) :=
  let cleanHost := normalizeHost host in
  match server (cleanHost ++ js "/api/tags") with
  | Rejected e => Fails (Raised e)
  | Resolved response =>
      if negb (ok response) then
        Fails (Raised {| message := js "Failed to fetch models" |})
      else
        match response_json response with
        | Returns data => model_names data
        | Fails f => Fails f
        end
  end.

End Probe.
Import Probe.

(* ================================================================== *)
(** * components/SettingsDialog.tsx                                    *)
(* ================================================================== *)

Module SettingsDialog.

Inductive ConnectionStatus := idle | success | error.

Record DialogState := {
  localSettings : AppSettings;
  models : list jsstring;
  isLoadingModels : bool;
  connectionStatus : ConnectionStatus;
  errorMsg : jsstring
}.

(** What the dialog reads of a caught value: [err.message] (an absent
    message reads like the empty one, both are falsy) and [err.name]. *)
Record Caught := { caught_message : jsstring; caught_name : jsstring }.

(** How an awaited call of the service ended, at its declared type. *)
Inductive Awaited (A : Type) :=
  | Fulfilled (a : A)
  | Thrown (err : Caught).
Arguments Fulfilled {A} a.
Arguments Thrown {A} err.

(** [hay.includes(needle)] on strings. *)
Definition includes (hay needle : jsstring) : bool :=
  match find_sub needle hay with
  | Some _ => true
  | None => false
  end.

(** [fetchedModels.includes(name)] on an array of strings. *)
Definition listed (fetchedModels : list jsstring) (name : jsstring) : bool :=
  existsb (JsString.eqb name) fetchedModels.

Definition nonempty (s : jsstring) : bool :=
  match s with [] => false | _ => true end.

(** The message the [catch] block chooses. *)
Definition failure_text (pageProtocol host : jsstring) (err : Caught) : jsstring :=
  let isMixedContent :=
    JsString.eqb pageProtocol (js "https:") && includes host (js "http:") in
  let isAbort := JsString.eqb (caught_name err) (js "AbortError") in
  let isFetchError :=
    nonempty (caught_message err)
    && (includes (caught_message err) (js "Failed to fetch")
        || includes (caught_message err) (js "NetworkError")
        || isAbort) in
  if isMixedContent then
    js "Mixed Content Error: Cannot connect to HTTP (localhost) from an HTTPS site. Please use a tunneling service (like ngrok) or run this app locally on HTTP."
  else if isFetchError then
    if isAbort then js "Connection Timed Out. Is Ollama running?"
    else js "Network Error: Could not reach Ollama. Check CORS/OLLAMA_ORIGINS."
  else
    match caught_message err with
    | [] => js "Failed to connect."
    | m => m
    end.

Definition select_model (settings : AppSettings) (name : jsstring) : AppSettings :=
  {| host := host settings; selectedModel := name;
     systemPrompt := systemPrompt settings |}.

(** The state writes of the inner [try]: the list is stored, and the first
    model is selected when the list is not empty and lacks the model
    selected when the handler was created. *)
Definition store_models (st : DialogState) (fetchedModels : list jsstring)
  : DialogState :=
  {| localSettings :=
       match fetchedModels with
       | first :: _ =>
           if negb (listed fetchedModels (selectedModel (localSettings st)))
           then select_model (localSettings st) first
           else localSettings st
       | [] => localSettings st
       end;
     models := fetchedModels;
     isLoadingModels := isLoadingModels st;
     connectionStatus := connectionStatus st;
     errorMsg := errorMsg st |}.

Definition with_status (st : DialogState) (status : ConnectionStatus)
                       (msg : jsstring) (loading : bool) : DialogState :=
  {| localSettings := localSettings st;
     models := models st;
     isLoadingModels := loading;
     connectionStatus := status;
     errorMsg := msg |}.

(** [handleCheckConnection(host, fetchList)], given how [checkConnection]
    and, when it is called, [fetchModels] end; [pageProtocol] is
    [window.location.protocol].  A failed model listing is swallowed. *)
Definition handleCheckConnection (pageProtocol : jsstring) (st : DialogState)
    (host : jsstring) (fetchList : bool)
    (connection : Awaited bool) (listing : Awaited (list jsstring))
  : DialogState :=
  let started := with_status st idle [] true in
  let settled :=
    match connection with
    | Fulfilled true =>
        let connected := with_status started success [] true in
        if fetchList then
          match listing with
          | Fulfilled fetchedModels => store_models connected fetchedModels
          | Thrown _ => connected
          end
        else connected
    | Fulfilled false =>
        with_status started error
          (js "Connected to server, but it returned an error.") true
    | Thrown err =>
        with_status started error (failure_text pageProtocol host err) true
    end in
  with_status settled (connectionStatus settled) (errorMsg settled) false.

(** [handleSave]: the settings handed to [onSave]; the host is cleaned by
    the same three steps as in [normalizeHost], written out in place. *)
Definition handleSave (st : DialogState) : AppSettings :=
  let cleanHost := trim (host (localSettings st)) in
  let cleanHost :=
    if negb (matches_scheme cleanHost) then js "http://" ++ cleanHost
    else cleanHost in
  let cleanHost := strip_final_slash cleanHost in
  {| host := cleanHost;
     selectedModel := selectedModel (localSettings st);
     systemPrompt := systemPrompt (localSettings st) |}.

End SettingsDialog.

(* ================================================================== *)
(** * components/InputArea.tsx and the typing indicator of App.tsx     *)
(* ================================================================== *)

Module InputArea.

(** [prev.filter((x, i) => keep(x, i))], the index counted from [i]. *)
Fixpoint filter_from {A : Type} (keep : A -> nat -> bool) (i : nat) (prev : list A)
  : list A :=
  match prev with
  | [] => []
  | x :: rest =>
      if keep x i then x :: filter_from keep (S i) rest
      else filter_from keep (S i) rest
  end.

(** [removeImage(index)]: [prev.filter((_, i) => i !== index)]. *)
Definition removeImage {A : Type} (index : nat) (prev : list A) : list A :=
  filter_from (fun _ i => negb (Nat.eqb i index)) 0 prev.

End InputArea.

Module BubbleView.

(** What [ChatBubble] renders of a message.  [render] is the Markdown
    renderer followed by the sanitizer, [DOMPurify.sanitize(marked.parse(_))],
    both outside this development.  The reasoning block stands under
    [!isUser && thinkHtml], where [thinkHtml] is [null] for an empty
    [thinkContent] and its rendering otherwise, so an empty rendering shows
    no block either; a system message is returned early as its plain
    content.  The result is the HTML of the block, if there is one. *)
Definition reasoningBlock (render : jsstring -> jsstring) (r : Role)
                          (text : jsstring) : option jsstring :=
  match r with
  | user => None
  | system => None
  | assistant =>
      match fst (ChatBubble.splitThink text) with
      | [] => None
      | thinkContent =>
          match render thinkContent with
          | [] => None
          | thinkHtml => Some thinkHtml
          end
      end
  end.

(** The text handed to [render] for the main bubble. *)
Definition bubbleBody (r : Role) (text : jsstring) : jsstring :=
  match r with
  | system => text
  | _ => ChatBubble.bodyText (ChatBubble.segments false text)
  end.

End BubbleView.

Module AppView.

(** Whether the three typing dots are rendered: the conversation is not
    empty and [isLoading && messages[messages.length - 1]?.role !==
    'assistant']. *)
Definition typingDots (st : AppState) : bool :=
  match rev (messages st) with
  | [] => false
  | m :: _ =>
      isLoading st
      && match role m with assistant => false | _ => true end
  end.

End AppView.

(* ================================================================== *)
(** * Vocabulary of the statements                                     *)
(* ================================================================== *)

Definition line_feed : N := 10%N.

Definition ends_with_line_feed (s : jsstring) : bool :=
  match rev s with
  | c :: _ => (c =? line_feed)%N
  | [] => false
  end.

Definition starts_with_line_feed (s : jsstring) : bool :=
  match s with
  | c :: _ => (c =? line_feed)%N
  | [] => false
  end.

(** Every cut between two consecutive fragments lies next to a line feed:
    the fragment before it ends with one, or the fragment behind it starts
    with one. *)
Fixpoint line_aligned (fragments : list jsstring) : bool :=
  match fragments with
  | f :: (g :: _) as rest =>
      (ends_with_line_feed f || starts_with_line_feed g) && line_aligned rest
  | _ => true
  end.

Definition no_line_feed (line : jsstring) : bool :=
  forallb (fun c => negb (c =? line_feed)%N) line.

(** The payload whose lines are [lines]: [lines.join('\n')]. *)
Fixpoint join_lines (lines : list jsstring) : jsstring :=
  match lines with
  | [] => []
  | [l] => l
  | l :: rest => l ++ line_feed :: join_lines rest
  end.

(** A line that decodes to [record]. *)
Definition decodes_to (line : jsstring) (record : json) : Prop :=
  no_line_feed line = true /\ blank line = false /\ JSON_parse line = Some record.

(** A line that is not blank and that [JSON.parse] rejects. *)
Definition malformed (line : jsstring) : Prop :=
  no_line_feed line = true /\ blank line = false /\ JSON_parse line = None.

(** The text a callback invocation appends to the assistant turn. *)
Definition effect_text (e : Effect) : jsstring :=
  match e with
  | OnChunk chunk => ToString chunk
  | OnError error => error_annotation error
  | OnDone | ConsoleWarn => []
  end.

(** The [message.content] of a record of the chat protocol. *)
Definition content_of (record : json) : jsstring :=
  match message_content record with
  | Some s => s
  | None => []
  end.

Definition valid_record (record : json) : Prop :=
  exists s, message_content record = Some s.

(** The last message of the conversation is the target of the exchange. *)
Definition targets_last (assistantId : jsstring) (st : AppState) : Prop :=
  match rev (messages st) with
  | m :: _ => id m = assistantId
  | [] => False
  end.

(** The exchange of the specification's first scenario: one record cut
    inside a JSON string, the next cut inside a key. *)
Definition scenario_fragments : list jsstring :=
  [ jsq "{'message':{'content':'He";
    jsq "llo'}}" ++ [line_feed] ++ jsq "{'do";
    jsq "ne':true}" ++ [line_feed] ].

(** The same payload cut next to its line feeds: behind the first, before
    the second, and once more before the last. *)
Definition aligned_fragments : list jsstring :=
  [ jsq "{'message':{'content':'Hello'}}" ++ [line_feed];
    jsq "{'done':true}";
    [line_feed] ].

(** A body with a malformed line between two well-formed ones, delivered
    in one chunk by a server that answers 200. *)
Definition garbled_body : jsstring :=
  join_lines [ jsq "{'message':{'content':'a'}}";
               jsq "{'message':";
               jsq "{'message':{'content':'b'}}" ].

Definition serves (code : N) (errorText : jsstring) (stream : option BodyStream)
  : Server :=
  fun _ => Resolved {| status := code; text := Resolved errorText; body := stream |}.

Definition local_settings : AppSettings :=
  {| host := js "localhost:11434";
     selectedModel := js "llama3";
     systemPrompt := js "You are a helpful AI assistant." |}.

(** An exchange on an empty conversation, all clock readings in the same
    millisecond. *)
Definition empty_chat : AppState := {| messages := []; isLoading := false |}.

Definition one_instant : Clock :=
  {| now1 := 1700000000000; now2 := 1700000000000;
     now3 := 1700000000000; now4 := 1700000000000 |}.

(** A body of two content records and the closing record, cut at line
    ends. *)
Definition hello_stream (final : StreamEnd) : BodyStream :=
  {| chunks := [ jsq "{'message':{'role':'assistant','content':'Hel'},'done':false}"
                   ++ [line_feed];
                 jsq "{'message':{'role':'assistant','content':'lo'},'done':false}"
                   ++ [line_feed]
                   ++ jsq "{'message':{'role':'assistant','content':''},'done':true}"
                   ++ [line_feed] ];
     ending := final |}.

Definition connection_lost : JsError := {| message := js "network error" |}.

(** A conversation with an earlier turn, for the frame property. *)
Definition earlier_turn : Message :=
  {| role := user; content := js "hi"; images := Some [];
     timestamp := 1600000000000; id := js "1600000000000" |}.

Definition endsWith_space (s : jsstring) : bool :=
  match rev s with
  | c :: _ => isTrimSpace c
  | [] => false
  end.

(** The assistant turn of an exchange once it holds [answer]. *)
Definition answered (clock : Clock) (answer : jsstring) : Message :=
  {| role := assistant; content := answer; images := None;
     timestamp := now4 clock; id := assistantId clock |}.

(** A server that answers every GET with [code] and the body [reply]. *)
Definition answers (code : N) (reply : jsstring) : GetServer :=
  fun _ => Resolved {| status := code; text := Resolved reply; body := None |}.

(** A server that lists two models. *)
Definition lists_models : GetServer :=
  fun _ => Resolved {| status := 200;
                       text := Resolved (jsq "{'models':[{'name':'llama3:8b','size':4},{'name':'phi3'}]}");
                       body := None |}.

(** The [name] a listed model is returned as. *)
Definition name_of (model : json) : option json :=
  match get_member model (js "name") with
  | Normal name => name
  | Throws => None
  end.

(** A dialog opened on the default settings. *)
Definition fresh_dialog : SettingsDialog.DialogState :=
  {| SettingsDialog.localSettings := local_settings;
     SettingsDialog.models := [];
     SettingsDialog.isLoadingModels := false;
     SettingsDialog.connectionStatus := SettingsDialog.idle;
     SettingsDialog.errorMsg := [] |}.

(** A lexer state whose pending literal, if any, expects no white space:
    every state the lexer reaches from its start is one. *)
Definition settled_word (st : lex_state) : Prop :=
  match st with
  | LWord expected _ => Forall (fun c => isJsonSpace c = false) expected
  | _ => True
  end.

Definition carriage_return : N := 13%N.

(** The lines of a payload that the loop does not skip. *)
Definition nonblank_lines (payload : jsstring) : list jsstring :=
  filter (fun line => negb (blank line)) (split_nl payload).

(** A body in the format of the protocol, every line closed by a line feed,
    with an empty line and a malformed line between two records. *)
Definition garbled_stream : jsstring :=
  jsq "{'message':{'content':'a'}}" ++ [line_feed]
  ++ [line_feed]
  ++ jsq "{'message':" ++ [line_feed]
  ++ jsq "{'message':{'content':'b'}}" ++ [line_feed].

(** An effect whose chunk, if it has one, is a string. *)
Definition string_chunk (e : Effect) : Prop :=
  match e with
  | OnChunk (JStr _) => True
  | OnChunk _ => False
  | _ => True
  end.

(* ================================================================== *)
(** * Facts about strings                                              *)
(* ================================================================== *)

Section StringFacts.

Lemma eqb_eq (a b : jsstring) : JsString.eqb a b = true <-> a = b.
Proof.
  revert b; induction a as [|x a IH]; intros [|y b]; simpl; split;
    try congruence; try reflexivity.
  - intros H. apply andb_true_iff in H as [H1 H2].
    apply N.eqb_eq in H1. apply IH in H2. now subst.
  - intros H. injection H as -> ->.
    rewrite N.eqb_refl. simpl. now apply IH.
Qed.

Lemma eqb_refl (a : jsstring) : JsString.eqb a a = true.
Proof. now apply eqb_eq. Qed.

Lemma startsWith_app (p r : jsstring) : startsWith p (p ++ r) = true.
Proof.
  induction p as [|x p IH]; simpl; [reflexivity|].
  now rewrite N.eqb_refl, IH.
Qed.

Lemma startsWith_split (p s : jsstring) :
  startsWith p s = true -> s = p ++ skipn (length p) s.
Proof.
  revert s; induction p as [|x p IH]; intros s H; simpl in *; [reflexivity|].
  destruct s as [|y s]; [discriminate|].
  apply andb_true_iff in H as [H1 H2]. apply N.eqb_eq in H1. subst y.
  simpl. f_equal. now apply IH.
Qed.

Lemma find_sub_sound (pat s pre post : jsstring) :
  find_sub pat s = Some (pre, post) -> s = pre ++ pat ++ post.
Proof.
  revert pre; induction s as [|c s IH]; intros pre H.
  - simpl in H. destruct (startsWith pat []) eqn:E; [|discriminate].
    injection H as <- <-. now apply startsWith_split in E.
  - cbn [find_sub] in H. destruct (startsWith pat (c :: s)) eqn:E.
    + injection H as <- <-. now apply startsWith_split in E.
    + destruct (find_sub pat s) as [[pre' post']|] eqn:F; [|discriminate].
      injection H as <- <-. simpl. f_equal. now apply IH.
Qed.

Lemma find_sub_complete (pat s : jsstring) :
  Occurs pat s -> find_sub pat s <> None.
Proof.
  intros (pre & post & ->). induction pre as [|c pre IH].
  - simpl. destruct post, pat; simpl; rewrite ?N.eqb_refl, ?startsWith_app;
      simpl; congruence.
  - cbn [app find_sub].
    destruct (startsWith pat (c :: pre ++ pat ++ post)); [congruence|].
    destruct (find_sub pat (pre ++ pat ++ post)) as [[? ?]|]; congruence.
Qed.

Lemma find_sub_absent (pat s : jsstring) :
  ~ Occurs pat s -> find_sub pat s = None.
Proof.
  intros H. destruct (find_sub pat s) as [[pre post]|] eqn:E; [|reflexivity].
  exfalso. apply H. exists pre, post. now apply find_sub_sound.
Qed.

Lemma find_sub_here (pat rest : jsstring) :
  find_sub pat (pat ++ rest) = Some ([], rest).
Proof.
  destruct (pat ++ rest) eqn:E; cbn [find_sub]; rewrite <- E;
    rewrite startsWith_app, skipn_app, skipn_all, Nat.sub_diag; reflexivity.
Qed.

(** A marker whose first code unit does not recur in it cannot overlap a
    later copy of itself, so its first occurrence behind a text free of it
    is the one written there. *)
Lemma startsWith_across (h : N) (t x y : jsstring) :
  ~ In h t -> startsWith t (x ++ h :: y) = true -> startsWith t x = true.
Proof.
  revert x; induction t as [|c t IH]; intros x Hin H; [reflexivity|].
  destruct x as [|d x]; simpl in *.
  - apply andb_true_iff in H as [H _]. apply N.eqb_eq in H.
    exfalso. apply Hin. now left.
  - apply andb_true_iff in H as [H1 H2]. rewrite H1. simpl.
    apply IH with (x := x); [|assumption]. intros F. apply Hin. now right.
Qed.

Lemma find_sub_first (h : N) (t a rest : jsstring) :
  ~ In h t -> ~ Occurs (h :: t) a ->
  find_sub (h :: t) (a ++ (h :: t) ++ rest) = Some (a, rest).
Proof.
  intros Hin. induction a as [|c a IH]; intros Hno.
  - apply (find_sub_here (h :: t) rest).
  - cbn [app find_sub].
    destruct (startsWith (h :: t) (c :: a ++ (h :: t) ++ rest)) eqn:E.
    + exfalso. simpl in E. apply andb_true_iff in E as [E1 E2].
      apply N.eqb_eq in E1. subst c.
      apply startsWith_across in E2; [|assumption].
      apply Hno. exists [], (skipn (length t) a). simpl. f_equal.
      now apply startsWith_split.
    + cbn [app] in IH, E. rewrite E, IH; [reflexivity|].
      intros (pre & post & ->). apply Hno. now exists (c :: pre), post.
Qed.

End StringFacts.

(* ================================================================== *)
(** * Host normalization                                               *)
(* ================================================================== *)

Section NormalizeHost.

Lemma with_scheme_matches (s : jsstring) : matches_scheme (with_scheme s) = true.
Proof.
  unfold with_scheme. destruct (matches_scheme s) eqn:E; cbn [negb]; [exact E|].
  unfold matches_scheme. now rewrite startsWith_app.
Qed.

Lemma startsWith_without_last (q a : jsstring) (c : N) :
  startsWith q (a ++ [c]) = true -> a ++ [c] <> q -> startsWith q a = true.
Proof.
  revert a; induction q as [|x q IH]; intros a H Hne; [reflexivity|].
  destruct a as [|y a]; simpl in *.
  - apply andb_true_iff in H as [H1 H2]. apply N.eqb_eq in H1. subst x.
    destruct q; [now elim Hne | discriminate].
  - apply andb_true_iff in H as [H1 H2]. rewrite H1. simpl.
    apply IH; [assumption|]. intros <-. apply N.eqb_eq in H1. subst.
    now elim Hne.
Qed.

(** Removing the final slash keeps a prefix that is not the whole string. *)
Lemma strip_keeps_prefix (q p : jsstring) :
  startsWith q p = true -> p <> q -> startsWith q (strip_final_slash p) = true.
Proof.
  intros H Hne. unfold strip_final_slash.
  destruct (rev p) as [|c r] eqn:R; [assumption|].
  destruct (c =? 47)%N; [|assumption].
  assert (P : p = rev r ++ [c]).
  { rewrite <- (rev_involutive p), R. reflexivity. }
  rewrite P in H, Hne. now apply startsWith_without_last with (c := c).
Qed.

Lemma strip_no_slash (p : jsstring) :
  endsWith_two_slashes p = false -> endsWith_slash (strip_final_slash p) = false.
Proof.
  unfold endsWith_two_slashes, endsWith_slash, strip_final_slash.
  destruct (rev p) as [|c r] eqn:R; [now rewrite R|].
  destruct (c =? 47)%N eqn:C.
  - rewrite rev_involutive. destruct r; simpl; [reflexivity|now intros ->].
  - now rewrite R, C.
Qed.

End NormalizeHost.

(** C9, as the code has it: when the trimmed input, once it carries a
    scheme, does not end with two slashes, the normalized host starts with
    [http://] or [https://] (with [http://] when the trimmed input had
    neither) and does not end with a slash. *)
Theorem normalizeHost_post (host : jsstring) :
  endsWith_two_slashes (with_scheme (trim host)) = false ->
  matches_scheme (normalizeHost host) = true
  /\ endsWith_slash (normalizeHost host) = false
  /\ (matches_scheme (trim host) = false ->
      startsWith (js "http://") (normalizeHost host) = true).
Proof.
  intros H. unfold normalizeHost.
  assert (K : forall q, endsWith_two_slashes q = true ->
                        startsWith q (with_scheme (trim host)) = true ->
                        startsWith q (strip_final_slash (with_scheme (trim host))) = true).
  { intros q Hq Hs. apply strip_keeps_prefix; [assumption|].
    intros E. rewrite E in H. congruence. }
  split; [|split].
  - pose proof (with_scheme_matches (trim host)) as M.
    unfold matches_scheme in *. apply orb_true_iff in M as [M|M].
    + rewrite (K (js "http://")); auto.
    + rewrite (K (js "https://")); auto using orb_true_r.
  - now apply strip_no_slash.
  - intros E. apply K; [reflexivity|].
    unfold with_scheme. rewrite E. simpl negb. cbv iota.
    apply startsWith_app.
Qed.

Lemma normalizeHost_post_witness :
  endsWith_two_slashes (with_scheme (trim (js " localhost:11434/ "))) = false
  /\ matches_scheme (normalizeHost (js " localhost:11434/ ")) = true
  /\ endsWith_slash (normalizeHost (js " localhost:11434/ ")) = false
  /\ (matches_scheme (trim (js " localhost:11434/ ")) = false ->
      startsWith (js "http://") (normalizeHost (js " localhost:11434/ ")) = true).
Proof.
  split; [reflexivity|].
  apply (normalizeHost_post (js " localhost:11434/ ")). reflexivity.
Defined.

(** C9, as stated, fails: the final [replace] removes one slash only, so a
    host with two trailing slashes keeps one. *)
Lemma normalizeHost_keeps_a_slash :
  normalizeHost (js "localhost:11434//") = js "http://localhost:11434/"
  /\ ~ (matches_scheme (normalizeHost (js "localhost:11434//")) = true
        /\ endsWith_slash (normalizeHost (js "localhost:11434//")) = false).
Proof.
  split; [reflexivity|]. intros [_ H]. vm_compute in H. discriminate.
Qed.

(** The empty host text loses a slash of the scheme itself. *)
Example normalizeHost_empty :
  normalizeHost [] = js "http:/" /\ matches_scheme (normalizeHost []) = false.
Proof. split; reflexivity. Qed.

(* ================================================================== *)
(** * The reasoning splitter                                           *)
(* ================================================================== *)

Section Splitter.
Import ChatBubble.

Lemma open_marker_shape : think_open = 60%N :: js "think>" /\ ~ In 60%N (js "think>").
Proof.
  split; [reflexivity|]. cbv. intros H.
  repeat (destruct H as [H|H]; [discriminate|]). exact H.
Qed.

Lemma close_marker_shape : think_close = 60%N :: js "/think>" /\ ~ In 60%N (js "/think>").
Proof.
  split; [reflexivity|]. cbv. intros H.
  repeat (destruct H as [H|H]; [discriminate|]). exact H.
Qed.

Lemma find_open_first (a rest : jsstring) :
  ~ Occurs think_open a ->
  find_sub think_open (a ++ think_open ++ rest) = Some (a, rest).
Proof.
  destruct open_marker_shape as [-> Hin]. now apply find_sub_first.
Qed.

Lemma find_close_first (a rest : jsstring) :
  ~ Occurs think_close a ->
  find_sub think_close (a ++ think_close ++ rest) = Some (a, rest).
Proof.
  destruct close_marker_shape as [-> Hin]. now apply find_sub_first.
Qed.

Lemma splitThink_without_marker (content : jsstring) :
  ~ Occurs think_open content -> splitThink content = ([], content).
Proof.
  intros H. unfold splitThink, thinkMatch. now rewrite find_sub_absent.
Qed.

(** A closed region behind a marker-free prefix is cut out. *)
Lemma splitThink_closed (a r rest : jsstring) :
  ~ Occurs think_open a -> ~ Occurs think_close r ->
  splitThink (a ++ think_open ++ r ++ think_close ++ rest) = (r, a ++ rest).
Proof.
  intros Ha Hr. unfold splitThink, thinkMatch.
  now rewrite find_open_first, find_close_first.
Qed.

(** An open region takes the rest of the text. *)
Lemma splitThink_unclosed (a r : jsstring) :
  ~ Occurs think_open a -> ~ Occurs think_close r ->
  splitThink (a ++ think_open ++ r) = (r, a).
Proof.
  intros Ha Hr. unfold splitThink, thinkMatch.
  rewrite find_open_first, find_sub_absent, app_nil_r by assumption.
  reflexivity.
Qed.

End Splitter.

(** C4: [<think>abc</think>def] splits into reasoning [abc] and body [def];
    [<think>abc], not closed yet, into reasoning [abc] and an empty body; a
    text without the opening marker has no reasoning segment and is its own
    body. *)
Theorem splitter_boundaries :
  ChatBubble.segments false (js "<think>abc</think>def")
  = {| ChatBubble.reasoningText := Some (js "abc"); ChatBubble.bodyText := js "def" |}
  /\ ChatBubble.segments false (js "<think>abc")
     = {| ChatBubble.reasoningText := Some (js "abc"); ChatBubble.bodyText := [] |}
  /\ forall isSystem text, ~ Occurs ChatBubble.think_open text ->
       ChatBubble.segments isSystem text
       = {| ChatBubble.reasoningText := None; ChatBubble.bodyText := text |}.
Proof.
  split; [reflexivity|]. split; [reflexivity|].
  intros isSystem text H. unfold ChatBubble.segments.
  destruct isSystem; [reflexivity|]. now rewrite splitThink_without_marker.
Qed.

Lemma splitter_boundaries_witness :
  ~ Occurs ChatBubble.think_open (js "plain text")
  /\ ChatBubble.segments false (js "plain text")
     = {| ChatBubble.reasoningText := None; ChatBubble.bodyText := js "plain text" |}.
Proof.
  assert (H : ~ Occurs ChatBubble.think_open (js "plain text")).
  { intros H. apply find_sub_complete in H. apply H. reflexivity. }
  split; [exact H|].
  destruct splitter_boundaries as (_ & _ & K). apply K. exact H.
Defined.

(** C8: of two reasoning regions only the first is extracted; the second,
    markers and text, stays in the body as it was written. *)
Theorem splitter_first_region_only (a r1 b r2 c : jsstring) :
  ~ Occurs ChatBubble.think_open a ->
  ~ Occurs ChatBubble.think_close r1 ->
  ChatBubble.splitThink
    (a ++ ChatBubble.think_open ++ r1 ++ ChatBubble.think_close
       ++ b ++ ChatBubble.think_open ++ r2 ++ ChatBubble.think_close ++ c)
  = (r1, a ++ b ++ ChatBubble.think_open ++ r2 ++ ChatBubble.think_close ++ c).
Proof. intros Ha Hr. now apply splitThink_closed. Qed.

Lemma splitter_first_region_only_witness :
  ~ Occurs ChatBubble.think_open (js "x")
  /\ ~ Occurs ChatBubble.think_close (js "abc")
  /\ ChatBubble.splitThink (js "x<think>abc</think>def<think>q</think>r")
     = (js "abc", js "xdef<think>q</think>r").
Proof.
  assert (Ha : ~ Occurs ChatBubble.think_open (js "x")).
  { intros H. apply find_sub_complete in H. apply H. reflexivity. }
  assert (Hr : ~ Occurs ChatBubble.think_close (js "abc")).
  { intros H. apply find_sub_complete in H. apply H. reflexivity. }
  split; [exact Ha|]. split; [exact Hr|].
  exact (splitter_first_region_only (js "x") (js "abc") (js "def") (js "q")
                                    (js "r") Ha Hr).
Defined.

(* ================================================================== *)
(** * The parser on sample texts                                       *)
(* ================================================================== *)

Example parse_record :
  JSON_parse (jsq " {'message': {'role':'assistant', 'content':'Hi\u0021\n'}, 'done':false} ")
  = Some (JObj [(js "message",
                 JObj [(js "role", JStr (js "assistant"));
                       (js "content", JStr (js "Hi!" ++ [line_feed]))]);
                (js "done", JBool false)]).
Proof. reflexivity. Qed.

Example parse_values :
  JSON_parse (jsq "[-0.5e+3, 10, true, null, [], {}, 'x']")
  = Some (JArr [JNum (js "-0.5e+3"); JNum (js "10"); JBool true; JNull;
                JArr []; JObj []; JStr (js "x")]).
Proof. reflexivity. Qed.

Example parse_rejects :
  map JSON_parse
      [ []; jsq "{'message':{'content':'He"; jsq "llo'}}"; jsq "{'do";
        jsq "ne':true}"; jsq "01"; jsq "1."; jsq "[1,]"; jsq "{'a':1,}";
        jsq "{'a' 1}"; jsq "nul"; jsq "1 2"; jsq "'a"; jsq "{a:1}" ]
  = repeat None 14.
Proof. reflexivity. Qed.

(** Numbers print as the engine prints the double they denote. *)
Example numbers_print :
  map (fun lexeme => number_toString (js lexeme))
      [ "1.50"; "-0.0"; "100"; "0.1"; "9007199254740993"; "1e21";
        "123456789012345680000"; "0.000001"; "0.0000001"; "5e-324"; "2e-324";
        "1.7976931348623157e308"; "1e400"; "-1e400"; "-12.5e-3" ]%string
  = map js
      [ "1.5"; "0"; "100"; "0.1"; "9007199254740992"; "1e+21";
        "123456789012345680000"; "0.000001"; "1e-7"; "5e-324"; "0";
        "1.7976931348623157e+308"; "Infinity"; "-Infinity"; "-0.0125" ]%string.
Proof. vm_compute. reflexivity. Qed.

Example values_print :
  option_map ToString (JSON_parse (jsq "[1.0,null,[true,'a'],{'k':2},2.50]"))
  = Some (js "1,,true,a,[object Object],2.5").
Proof. vm_compute. reflexivity. Qed.

(** A repeated key keeps its last value; only a string with code units,
    a number that does not round to zero, [true], an array or an object is
    truthy. *)
Example member_and_truthiness :
  option_map (fun v => get_member v (js "a")) (JSON_parse (jsq "{'a':1,'a':2}"))
  = Some (Normal (Some (JNum (js "2"))))
  /\ get_member JNull (js "message") = Throws
  /\ map truthy [JNull; JBool false; JNum (js "0.0"); JNum (js "1e-400"); JStr []]
     = repeat false 5
  /\ map truthy [JBool true; JNum (js "1e-2"); JStr (js "0"); JArr []; JObj []]
     = repeat true 5.
Proof. repeat split; reflexivity. Qed.

(* ================================================================== *)
(** * Lines and fragments                                              *)
(* ================================================================== *)

Section Lines.

Lemma split_nl_nonempty (s : jsstring) : split_nl s <> [].
Proof.
  destruct s as [|c r]; simpl; [discriminate|].
  destruct (c =? 10)%N; [discriminate|]. destruct (split_nl r); discriminate.
Qed.

(** Cutting at a line feed cuts the list of lines in two. *)
Lemma split_nl_app_lf (a b : jsstring) :
  split_nl (a ++ line_feed :: b) = split_nl a ++ split_nl b.
Proof.
  induction a as [|c a IH]; [reflexivity|].
  cbn [app split_nl]. destruct (c =? 10)%N.
  - now rewrite IH.
  - rewrite IH. pose proof (split_nl_nonempty a) as N.
    destruct (split_nl a); [contradiction | reflexivity].
Qed.

Lemma split_nl_line (l : jsstring) :
  no_line_feed l = true -> split_nl l = [l].
Proof.
  induction l as [|c l IH]; [reflexivity|]. simpl. intros H.
  apply andb_true_iff in H as [H1 H2]. unfold line_feed in H1.
  apply negb_true_iff in H1. rewrite H1, IH; auto.
Qed.

Lemma split_nl_join (lines : list jsstring) :
  forallb no_line_feed lines = true -> lines <> [] ->
  split_nl (join_lines lines) = lines.
Proof.
  induction lines as [|l rest IH]; [contradiction|]. intros H _.
  cbn [forallb] in H. apply andb_true_iff in H as [H1 H2].
  destruct rest as [|l' rest'].
  - now apply split_nl_line.
  - change (join_lines (l :: l' :: rest'))
      with (l ++ line_feed :: join_lines (l' :: rest')).
    rewrite split_nl_app_lf, split_nl_line, IH; auto. discriminate.
Qed.

Lemma ends_with_line_feed_inv (f : jsstring) :
  ends_with_line_feed f = true -> exists a, f = a ++ [line_feed].
Proof.
  unfold ends_with_line_feed. destruct (rev f) as [|c r] eqn:R; [discriminate|].
  intros H. apply N.eqb_eq in H. subst c. exists (rev r).
  rewrite <- (rev_involutive f), R. reflexivity.
Qed.

Lemma starts_with_line_feed_inv (g : jsstring) :
  starts_with_line_feed g = true -> exists b, g = line_feed :: b.
Proof.
  destruct g as [|c b]; [discriminate|]. simpl. intros H.
  apply N.eqb_eq in H. subst c. now exists b.
Qed.

(** Whatever is computed line by line, and yields nothing on an empty
    line, is computed alike on both sides of a cut next to a line feed. *)
Section PerLine.
Variable X : Type.
Variable per_line : jsstring -> list X.
Hypothesis per_line_empty : per_line [] = [].

Lemma per_line_cut (f r : jsstring) :
  ends_with_line_feed f || starts_with_line_feed r = true ->
  flat_map per_line (split_nl (f ++ r))
  = flat_map per_line (split_nl f) ++ flat_map per_line (split_nl r).
Proof.
  intros H. apply orb_true_iff in H as [H|H].
  - apply ends_with_line_feed_inv in H as [a ->].
    rewrite <- app_assoc. cbn [app].
    rewrite !split_nl_app_lf, !flat_map_app. cbn [split_nl flat_map].
    now rewrite per_line_empty, !app_nil_r.
  - apply starts_with_line_feed_inv in H as [b ->].
    rewrite split_nl_app_lf, flat_map_app.
    change (line_feed :: b) with ([] ++ line_feed :: b).
    rewrite (split_nl_app_lf [] b), flat_map_app. cbn [split_nl flat_map].
    now rewrite per_line_empty.
Qed.

Lemma per_line_fragments (fragments : list jsstring) :
  line_aligned fragments = true ->
  flat_map (fun text => flat_map per_line (split_nl text)) fragments
  = flat_map per_line (split_nl (List.concat fragments)).
Proof.
  induction fragments as [|f rest IH]; intros H.
  - cbn. now rewrite per_line_empty.
  - destruct rest as [|g rest'].
    + cbn. now rewrite !app_nil_r.
    + assert (A : line_aligned (f :: g :: rest')
                  = (ends_with_line_feed f || starts_with_line_feed g)
                    && line_aligned (g :: rest')) by reflexivity.
      rewrite A in H. apply andb_true_iff in H as [H1 H2].
      specialize (IH H2). remember (g :: rest') as R eqn:ER.
      cbn [flat_map List.concat]. rewrite IH.
      rewrite per_line_cut; [reflexivity|].
      apply orb_true_iff in H1 as [H1|H1]; [now rewrite H1|].
      apply starts_with_line_feed_inv in H1 as [b ->]. subst R.
      cbn. apply orb_true_r.
Qed.
End PerLine.

Lemma read_loop_unfold (fragments : list jsstring) (ending : StreamEnd) :
  read_loop fragments ending
  = flat_map chunk_effects fragments ++ read_loop [] ending.
Proof.
  induction fragments as [|f fs IH]; [reflexivity|].
  cbn [read_loop flat_map]. now rewrite IH, app_assoc.
Qed.

Lemma line_effects_empty : line_effects [] = [].
Proof. reflexivity. Qed.

Lemma line_records_empty : line_records [] = [].
Proof. reflexivity. Qed.

End Lines.

(* ================================================================== *)
(** * The frame decoder inside streamChat                              *)
(* ================================================================== *)

(** C1, as the code has it: when every cut between fragments lies next to a
    line feed, the records decoded from the fragments, and the effects of
    the read loop, are those of the payload delivered in one piece. *)
Theorem decoding_line_aligned (fragments : list jsstring) (ending : StreamEnd) :
  line_aligned fragments = true ->
  decoded_records fragments = decoded_records [List.concat fragments]
  /\ read_loop fragments ending = read_loop [List.concat fragments] ending.
Proof.
  intros H. split.
  - unfold decoded_records, chunk_records.
    rewrite (per_line_fragments _ line_records line_records_empty) by assumption.
    cbn. now rewrite app_nil_r.
  - rewrite (read_loop_unfold fragments), (read_loop_unfold [List.concat fragments]).
    f_equal.
    unfold chunk_effects.
    rewrite (per_line_fragments _ line_effects line_effects_empty) by assumption.
    cbn. now rewrite app_nil_r.
Qed.

Lemma decoding_line_aligned_witness :
  line_aligned aligned_fragments = true
  /\ decoded_records aligned_fragments
     = decoded_records [List.concat aligned_fragments]
  /\ read_loop aligned_fragments EndOfStream
     = read_loop [List.concat aligned_fragments] EndOfStream.
Proof.
  split; [reflexivity|].
  apply (decoding_line_aligned aligned_fragments EndOfStream). reflexivity.
Defined.

(** What both sides of that instance are. *)
Example aligned_fragments_decoded :
  decoded_records aligned_fragments
  = [JObj [(js "message", JObj [(js "content", JStr (js "Hello"))])];
     JObj [(js "done", JBool true)]]
  /\ callbacks (read_loop aligned_fragments EndOfStream)
     = [OnChunk (JStr (js "Hello")); OnDone].
Proof. split; reflexivity. Qed.

(** C1, as stated, fails: the loop keeps nothing between two reads, so a
    line cut by a chunk boundary is parsed as two lines and both halves are
    dropped. *)
Lemma decoding_depends_on_chunking :
  decoded_records scenario_fragments = []
  /\ decoded_records [List.concat scenario_fragments]
     = [JObj [(js "message", JObj [(js "content", JStr (js "Hello"))])];
        JObj [(js "done", JBool true)]]
  /\ decoded_records scenario_fragments
     <> decoded_records [List.concat scenario_fragments].
Proof.
  split; [reflexivity|]. split; [reflexivity|]. vm_compute. discriminate.
Qed.

(** The same run, seen by the callbacks. *)
Example scenario_callbacks :
  callbacks (read_loop scenario_fragments EndOfStream) = [OnDone]
  /\ callbacks (read_loop [List.concat scenario_fragments] EndOfStream)
     = [OnChunk (JStr (js "Hello")); OnDone].
Proof. split; reflexivity. Qed.

(* ================================================================== *)
(** * Malformed lines                                                  *)
(* ================================================================== *)

Section Malformed.

Lemma line_effects_blank (line : jsstring) :
  blank line = true -> line_effects line = [].
Proof. intros B. unfold line_effects. now rewrite B. Qed.

Lemma line_records_blank (line : jsstring) :
  blank line = true -> line_records line = [].
Proof. intros B. unfold line_records. now rewrite B. Qed.

(** What yields nothing on a blank line is computed from the other lines. *)
Lemma flat_map_nonblank {X : Type} (per_line : jsstring -> list X) :
  (forall line, blank line = true -> per_line line = []) ->
  forall lines,
    flat_map per_line lines
    = flat_map per_line (filter (fun line => negb (blank line)) lines).
Proof.
  intros H lines. induction lines as [|l ls IH]; [reflexivity|].
  cbn [flat_map filter]. destruct (blank l) eqn:B; cbn [negb flat_map].
  - now rewrite (H l B).
  - now rewrite IH.
Qed.

Lemma line_records_decoded {lines : list jsstring} {records : list json} :
  Forall2 decodes_to lines records -> flat_map line_records lines = records.
Proof.
  induction 1 as [|l r ls rs (_ & B & P) _ IH]; [reflexivity|].
  cbn [flat_map]. unfold line_records at 1. now rewrite B, P, IH.
Qed.

Lemma decoded_no_line_feed {lines : list jsstring} {records : list json} :
  Forall2 decodes_to lines records -> forallb no_line_feed lines = true.
Proof.
  induction 1 as [|l r ls rs (L & _) _ IH]; [reflexivity|].
  cbn [forallb]. now rewrite L, IH.
Qed.

Lemma line_effects_malformed {line : jsstring} :
  malformed line -> line_effects line = [ConsoleWarn] /\ line_records line = [].
Proof.
  intros (_ & B & P). unfold line_effects, line_records. now rewrite B, P.
Qed.

(** No line ends the exchange: a line yields at most one effect, a chunk or
    a console warning. *)
Lemma line_effects_cases (line : jsstring) :
  line_effects line = [] \/ line_effects line = [ConsoleWarn]
  \/ exists c, line_effects line = [OnChunk c].
Proof.
  unfold line_effects.
  destruct (blank line); [now left|].
  destruct (JSON_parse line) as [v|]; [|now right; left].
  destruct (get_member v (js "message")) as [[m|]|]; [|now left|now right; left].
  destruct (truthy m); [|now left].
  destruct (get_member m (js "content")) as [[c|]|]; [|now left|now right; left].
  destruct (truthy c); [|now left]. right; right. now exists c.
Qed.

Lemma count_app (p : Effect -> bool) (a b : list Effect) :
  count p (a ++ b) = count p a + count p b.
Proof. unfold count. now rewrite filter_app, length_app. Qed.

Lemma chunk_effects_not_terminal (text : jsstring) :
  count is_terminal (chunk_effects text) = 0.
Proof.
  unfold chunk_effects. induction (split_nl text) as [|l ls IH]; [reflexivity|].
  cbn [flat_map]. rewrite count_app, IH.
  destruct (line_effects_cases l) as [-> | [-> | [c ->]]]; reflexivity.
Qed.

Lemma not_terminal_split (l : list Effect) :
  count is_terminal l = 0 -> count is_done l = 0 /\ count is_error l = 0.
Proof.
  unfold count. induction l as [|e l IH]; [now split|].
  destruct e; cbn; auto; discriminate.
Qed.

End Malformed.

(** C3, as the code has it: when the lines of a payload that are not blank
    are well-formed lines and one malformed line among them, the malformed
    line does not stop the loop; the records of the well-formed lines are
    decoded in order and their effects follow in order, and the malformed
    line leaves one console warning and no callback.  Blank lines, the
    empty line behind a final line feed among them, are skipped. *)
Theorem malformed_line_skipped
  (payload : jsstring) (before after : list jsstring) (bad : jsstring)
  (records_before records_after : list json) :
  nonblank_lines payload = before ++ bad :: after ->
  Forall2 decodes_to before records_before ->
  Forall2 decodes_to after records_after ->
  malformed bad ->
  chunk_records payload = records_before ++ records_after
  /\ read_loop [payload] EndOfStream
     = flat_map line_effects before ++ ConsoleWarn
         :: flat_map line_effects after ++ [OnDone]
  /\ count is_error (read_loop [payload] EndOfStream) = 0.
Proof.
  intros S Hb Ha Hbad. unfold nonblank_lines in S.
  destruct (line_effects_malformed Hbad) as [E R].
  assert (T : read_loop [payload] EndOfStream
              = flat_map line_effects before ++ ConsoleWarn
                  :: flat_map line_effects after ++ [OnDone]).
  { cbn [read_loop]. unfold chunk_effects.
    rewrite (flat_map_nonblank line_effects line_effects_blank), S, flat_map_app.
    cbn [flat_map]. rewrite E, <- app_assoc. reflexivity. }
  split; [|split].
  - unfold chunk_records.
    rewrite (flat_map_nonblank line_records line_records_blank), S, flat_map_app.
    cbn [flat_map].
    rewrite R, (line_records_decoded Hb), (line_records_decoded Ha).
    reflexivity.
  - exact T.
  - cbn [read_loop]. rewrite count_app.
    destruct (not_terminal_split _ (chunk_effects_not_terminal payload)) as [_ ->].
    reflexivity.
Qed.

Lemma malformed_line_skipped_witness :
  nonblank_lines garbled_stream
  = [jsq "{'message':{'content':'a'}}"] ++ jsq "{'message':"
      :: [jsq "{'message':{'content':'b'}}"]
  /\ chunk_records garbled_stream
     = [JObj [(js "message", JObj [(js "content", JStr (js "a"))])]]
       ++ [JObj [(js "message", JObj [(js "content", JStr (js "b"))])]]
  /\ read_loop [garbled_stream] EndOfStream
     = flat_map line_effects [jsq "{'message':{'content':'a'}}"] ++ ConsoleWarn
         :: flat_map line_effects [jsq "{'message':{'content':'b'}}"] ++ [OnDone]
  /\ count is_error (read_loop [garbled_stream] EndOfStream) = 0.
Proof.
  split; [reflexivity|].
  apply (malformed_line_skipped garbled_stream
           [jsq "{'message':{'content':'a'}}"] [jsq "{'message':{'content':'b'}}"]
           (jsq "{'message':")
           [JObj [(js "message", JObj [(js "content", JStr (js "a"))])]]
           [JObj [(js "message", JObj [(js "content", JStr (js "b"))])]]).
  - reflexivity.
  - repeat constructor.
  - repeat constructor.
  - repeat constructor.
Defined.

(** That run, and the same body without line feed at its end. *)
Example garbled_runs :
  read_loop [garbled_stream] EndOfStream
  = [OnChunk (JStr (js "a")); ConsoleWarn; OnChunk (JStr (js "b")); OnDone]
  /\ read_loop [garbled_body] EndOfStream
     = [OnChunk (JStr (js "a")); ConsoleWarn; OnChunk (JStr (js "b")); OnDone].
Proof. split; reflexivity. Qed.

(** C3, as stated, fails: the caller of [streamChat] gets the two chunks
    and the completion, and no error signal for the malformed line. *)
Lemma malformed_line_not_signalled :
  callbacks (streamChat (serves 200 [] (Some {| chunks := [garbled_body];
                                                ending := EndOfStream |}))
                        local_settings [])
  = [OnChunk (JStr (js "a")); OnChunk (JStr (js "b")); OnDone]
  /\ count is_error
       (callbacks (streamChat (serves 200 [] (Some {| chunks := [garbled_body];
                                                      ending := EndOfStream |}))
                              local_settings [])) <> 1.
Proof. split; [reflexivity|]. vm_compute. discriminate. Qed.

(* ================================================================== *)
(** * Completion of an exchange                                        *)
(* ================================================================== *)

Section Completion.

Lemma chunks_not_terminal (fragments : list jsstring) :
  count is_terminal (flat_map chunk_effects fragments) = 0.
Proof.
  induction fragments as [|f fs IH]; [reflexivity|].
  cbn [flat_map]. now rewrite count_app, chunk_effects_not_terminal, IH.
Qed.

Lemma read_loop_completes (fragments : list jsstring) (ending : StreamEnd) :
  count is_done (read_loop fragments ending)
  + count is_error (read_loop fragments ending) = 1.
Proof.
  rewrite read_loop_unfold, !count_app.
  destruct (not_terminal_split _ (chunks_not_terminal fragments)) as [-> ->].
  destruct ending; reflexivity.
Qed.

(** A run is a sequence of chunks and warnings closed by one completion
    callback. *)
Lemma streamChat_shape (server : Server) (settings : AppSettings)
                       (messages : list ApiMessage) :
  exists progress final,
    streamChat server settings messages = progress ++ [final]
    /\ is_terminal final = true
    /\ count is_terminal progress = 0.
Proof.
  unfold streamChat.
  destruct (server _) as [response|e]; [|now exists [], (OnError e)].
  destruct (negb (ok response)).
  - destruct (text response) as [t|e]; eexists [], (OnError _); now split.
  - destruct (body response) as [stream|]; [|eexists [], (OnError _); now split].
    rewrite read_loop_unfold.
    exists (flat_map chunk_effects (chunks stream)).
    destruct (ending stream) as [|e];
      [exists OnDone | exists (OnError e)];
      (split; [reflexivity | split; [reflexivity | apply chunks_not_terminal]]).
Qed.

End Completion.

(** C5: in every exchange exactly one of [onDone] and [onError] is called,
    once: whichever of a rejected request, a status outside 200..299, a
    missing body, or a failed read ends it, or the end of the stream. *)
Theorem exactly_one_completion (server : Server) (settings : AppSettings)
                               (messages : list ApiMessage) :
  count is_done (streamChat server settings messages)
  + count is_error (streamChat server settings messages) = 1.
Proof.
  unfold streamChat.
  destruct (server _) as [response|e]; [|reflexivity].
  destruct (negb (ok response)).
  - destruct (text response); reflexivity.
  - destruct (body response) as [stream|]; [|reflexivity].
    apply read_loop_completes.
Qed.

(** C6: a response whose status is not a success ends the exchange with a
    single [onError] and nothing else, the body is never read as a stream;
    with the body text [errorText] the error message is
    [Ollama Error (<status>): <errorText>], which holds the decimal status
    and the text. *)
Theorem error_status_reported
  (server : Server) (settings : AppSettings) (messages : list ApiMessage)
  (response : Response) (errorText : jsstring) :
  server (chat_request settings messages) = Resolved response ->
  ok response = false ->
  text response = Resolved errorText ->
  streamChat server settings messages
  = [OnError (status_error (status response) errorText)]
  /\ message (status_error (status response) errorText)
     = js "Ollama Error (" ++ of_N (status response) ++ js "): " ++ errorText
  /\ Occurs (of_N (status response))
            (message (status_error (status response) errorText))
  /\ Occurs errorText (message (status_error (status response) errorText))
  /\ count is_chunk (streamChat server settings messages) = 0.
Proof.
  intros Hs Hok Ht.
  assert (E : streamChat server settings messages
              = [OnError (status_error (status response) errorText)]).
  { unfold streamChat. now rewrite Hs, Hok, Ht. }
  rewrite E. repeat split.
  - exists (js "Ollama Error ("), (js "): " ++ errorText). reflexivity.
  - exists (js "Ollama Error (" ++ of_N (status response) ++ js "): "), [].
    cbn [message status_error]. now rewrite app_nil_r, <- !app_assoc.
Qed.

Lemma error_status_reported_witness :
  streamChat (serves 500 (js "model not found") None) local_settings []
  = [OnError {| message := js "Ollama Error (500): model not found" |}].
Proof.
  pose proof (error_status_reported
                (serves 500 (js "model not found") None) local_settings []
                {| status := 500; text := Resolved (js "model not found");
                   body := None |}
                (js "model not found") eq_refl eq_refl eq_refl) as [H _].
  exact H.
Defined.

(** Whatever becomes of the body text, a status that is not a success ends
    the exchange with one [onError] and nothing else. *)
Lemma error_status_single_event
  (server : Server) (settings : AppSettings) (messages : list ApiMessage)
  (response : Response) :
  server (chat_request settings messages) = Resolved response ->
  ok response = false ->
  exists err, streamChat server settings messages = [OnError err].
Proof.
  intros Hs Hok. unfold streamChat. rewrite Hs, Hok. cbn [negb].
  destruct (text response); eauto.
Qed.

(* ================================================================== *)
(** * The accumulator                                                  *)
(* ================================================================== *)

Section Accumulator.

Variable assistantId : jsstring.

Lemma append_to_nth (suffix : jsstring) (prev : list Message) (i : nat) (msg : Message) :
  nth_error prev i = Some msg ->
  exists msg',
    nth_error (append_to assistantId suffix prev) i = Some msg'
    /\ role msg' = role msg /\ images msg' = images msg
    /\ timestamp msg' = timestamp msg /\ id msg' = id msg
    /\ (id msg <> assistantId -> msg' = msg)
    /\ (id msg = assistantId -> content msg' = content msg ++ suffix).
Proof.
  intros H. unfold append_to. rewrite nth_error_map, H. cbn [option_map].
  destruct (JsString.eqb (id msg) assistantId) eqn:E.
  - eexists. split; [reflexivity|]. cbn. repeat split; auto.
    intros N. apply eqb_eq in E. contradiction.
  - exists msg. repeat split; auto.
    intros K. rewrite K, eqb_refl in E. discriminate.
Qed.

Lemma apply_effect_length (st : AppState) (e : Effect) :
  length (messages (apply_effect assistantId st e)) = length (messages st).
Proof.
  destruct e; cbn [apply_effect messages]; unfold append_to;
    now rewrite ?length_map.
Qed.

Lemma apply_effect_frame (st : AppState) (e : Effect) (i : nat) (msg : Message) :
  nth_error (messages st) i = Some msg ->
  exists msg',
    nth_error (messages (apply_effect assistantId st e)) i = Some msg'
    /\ role msg' = role msg /\ images msg' = images msg
    /\ timestamp msg' = timestamp msg /\ id msg' = id msg
    /\ (id msg <> assistantId -> msg' = msg).
Proof.
  intros H.
  assert (Same : exists msg', nth_error (messages st) i = Some msg'
                 /\ role msg' = role msg /\ images msg' = images msg
                 /\ timestamp msg' = timestamp msg /\ id msg' = id msg
                 /\ (id msg <> assistantId -> msg' = msg))
    by (exists msg; repeat split; auto).
  destruct e as [chunk| |error|]; cbn [apply_effect messages]; try exact Same.
  - destruct (append_to_nth (ToString chunk) _ _ _ H)
      as (m & ? & ? & ? & ? & ? & ? & _). exists m. repeat split; auto.
  - destruct (append_to_nth (error_annotation error) _ _ _ H)
      as (m & ? & ? & ? & ? & ? & ? & _). exists m. repeat split; auto.
Qed.

(** The turn that the exchange targets grows by the text of each effect,
    at its end. *)
Lemma apply_effect_text (st : AppState) (e : Effect) :
  targets_last assistantId st ->
  targets_last assistantId (apply_effect assistantId st e)
  /\ assistant_text (apply_effect assistantId st e)
     = assistant_text st ++ effect_text e.
Proof.
  unfold targets_last, assistant_text. intros T.
  destruct e as [chunk| |error|]; cbn [apply_effect messages effect_text];
    try (rewrite app_nil_r; now split);
    unfold append_to; rewrite <- map_rev;
    destruct (rev (messages st)) as [|m r]; try contradiction;
    cbn [map]; rewrite T, eqb_refl; cbn; now split.
Qed.

Lemma run_effects_text (trace : list Effect) (st : AppState) :
  targets_last assistantId st ->
  assistant_text (run_effects assistantId trace st)
  = assistant_text st ++ List.concat (map effect_text trace).
Proof.
  revert st. induction trace as [|e trace IH]; intros st T.
  - cbn. now rewrite app_nil_r.
  - cbn [run_effects fold_left map List.concat].
    destruct (apply_effect_text st e T) as [T' E].
    unfold run_effects in IH. rewrite (IH _ T'), E. now rewrite app_assoc.
Qed.

End Accumulator.

Section Exchange.

Variables (server : Server) (settings : AppSettings) (st : AppState).
Variables (input : jsstring) (imgs : list jsstring) (clock : Clock).

Lemma placeholder_targeted :
  targets_last (assistantId clock)
    {| messages := newMessages st input imgs clock; isLoading := true |}
  /\ assistant_text
       {| messages := newMessages st input imgs clock; isLoading := true |} = [].
Proof.
  unfold targets_last, assistant_text, newMessages. cbn [messages].
  rewrite rev_app_distr. now split.
Qed.

(** The turn ends up holding the texts of the effects of the exchange, in
    their order. *)
Lemma handleSendMessage_text :
  assistant_text (handleSendMessage server settings st input imgs clock)
  = List.concat (map effect_text (exchange server settings st input imgs clock)).
Proof.
  unfold handleSendMessage. destruct placeholder_targeted as [T E].
  now rewrite run_effects_text, E.
Qed.

End Exchange.

Section Deltas.

(** A line whose record has the shape of the protocol contributes its
    [message.content], untouched. *)
Lemma line_text (line : jsstring) :
  Forall valid_record (line_records line) ->
  List.concat (map effect_text (line_effects line))
  = List.concat (map content_of (line_records line)).
Proof.
  unfold line_effects, line_records.
  destruct (blank line); [reflexivity|].
  destruct (JSON_parse line) as [v|]; [|reflexivity].
  intros V. apply Forall_inv in V. destruct V as [s V].
  cbn [map List.concat]. unfold content_of. rewrite V, app_nil_r.
  unfold message_content in V.
  destruct v as [| | | | |ms]; try discriminate. cbn [get_member].
  destruct (lookup_last (js "message") ms) as [[| | | | |mm]|]; try discriminate.
  cbn [truthy get_member].
  destruct (lookup_last (js "content") mm) as [[| | |s'| |]|]; try discriminate.
  injection V as ->. destruct s; cbn; now rewrite ?app_nil_r.
Qed.

Lemma chunk_text (text : jsstring) :
  Forall valid_record (chunk_records text) ->
  List.concat (map effect_text (chunk_effects text))
  = List.concat (map content_of (chunk_records text)).
Proof.
  unfold chunk_effects, chunk_records.
  induction (split_nl text) as [|l ls IH]; [reflexivity|].
  cbn [flat_map]. intros V. apply Forall_app in V as [V1 V2].
  now rewrite !map_app, !concat_app, line_text, IH.
Qed.

Lemma fragments_text (fragments : list jsstring) :
  Forall valid_record (decoded_records fragments) ->
  List.concat (map effect_text (flat_map chunk_effects fragments))
  = List.concat (map content_of (decoded_records fragments)).
Proof.
  unfold decoded_records.
  induction fragments as [|f fs IH]; [reflexivity|].
  cbn [flat_map]. intros V. apply Forall_app in V as [V1 V2].
  now rewrite !map_app, !concat_app, chunk_text, IH.
Qed.

End Deltas.

(** C2: when the records an exchange decodes have the shape of the
    protocol, the assistant turn ends up holding their [message.content]
    fields, concatenated in stream order and otherwise untouched. *)
Theorem accumulation_in_order
  (server : Server) (settings : AppSettings) (st : AppState)
  (input : jsstring) (imgs : list jsstring) (clock : Clock)
  (response : Response) (stream : BodyStream) :
  server (chat_request settings (apiMessages settings st input imgs clock))
  = Resolved response ->
  ok response = true ->
  body response = Some stream ->
  ending stream = EndOfStream ->
  Forall valid_record (decoded_records (chunks stream)) ->
  assistant_text (handleSendMessage server settings st input imgs clock)
  = List.concat (map content_of (decoded_records (chunks stream))).
Proof.
  intros Hs Hok Hb He V.
  rewrite handleSendMessage_text. unfold exchange, streamChat.
  rewrite Hs, Hok, Hb. cbn [negb].
  rewrite read_loop_unfold, He, map_app, concat_app, fragments_text by assumption.
  cbn. now rewrite app_nil_r.
Qed.

Lemma accumulation_in_order_witness :
  assistant_text
    (handleSendMessage (serves 200 [] (Some (hello_stream EndOfStream)))
                       local_settings empty_chat (js "hi") [] one_instant)
  = List.concat (map content_of (decoded_records (chunks (hello_stream EndOfStream))))
  /\ List.concat (map content_of (decoded_records (chunks (hello_stream EndOfStream))))
     = js "Hello".
Proof.
  split; [|reflexivity].
  apply (accumulation_in_order
           (serves 200 [] (Some (hello_stream EndOfStream)))
           local_settings empty_chat (js "hi") [] one_instant
           {| status := 200; text := Resolved [];
              body := Some (hello_stream EndOfStream) |}
           (hello_stream EndOfStream)); try reflexivity.
  cbv. repeat (constructor; [eexists; reflexivity|]). constructor.
Defined.

(** Each delta goes to the end of the buffer as it is. *)
Lemma delta_appended (assistantId : jsstring) (st : AppState) (delta : jsstring) :
  targets_last assistantId st ->
  assistant_text (apply_effect assistantId st (OnChunk (JStr delta)))
  = assistant_text st ++ delta.
Proof. intros T. now destruct (apply_effect_text assistantId st (OnChunk (JStr delta)) T). Qed.

(** C7: when the exchange ends with [onError], the assistant turn holds
    what it held before the error, followed by the annotation
    [*[Error: <message>]*] on a line of its own. *)
Theorem error_keeps_partial_content
  (server : Server) (settings : AppSettings) (st : AppState)
  (input : jsstring) (imgs : list jsstring) (clock : Clock)
  (progress : list Effect) (error : JsError) :
  exchange server settings st input imgs clock = progress ++ [OnError error] ->
  assistant_text (handleSendMessage server settings st input imgs clock)
  = assistant_text
      (run_effects (assistantId clock) progress
         {| messages := newMessages st input imgs clock; isLoading := true |})
    ++ error_annotation error
  /\ error_annotation error
     = [line_feed; line_feed] ++ js "*[Error: " ++ message error ++ js "]*".
Proof.
  intros H. split; [|reflexivity].
  destruct (placeholder_targeted st input imgs clock) as [T E].
  unfold handleSendMessage. rewrite H, !run_effects_text by assumption.
  rewrite map_app, concat_app. cbn. now rewrite app_nil_r, <- app_assoc.
Qed.

Lemma error_keeps_partial_content_witness :
  assistant_text
    (handleSendMessage (serves 200 [] (Some (hello_stream (ReadFails connection_lost))))
                       local_settings empty_chat (js "hi") [] one_instant)
  = js "Hello" ++ [line_feed; line_feed] ++ js "*[Error: network error]*".
Proof.
  pose proof (error_keeps_partial_content
                (serves 200 [] (Some (hello_stream (ReadFails connection_lost))))
                local_settings empty_chat (js "hi") [] one_instant
                [OnChunk (JStr (js "Hel")); OnChunk (JStr (js "lo"))]
                connection_lost eq_refl) as [H _].
  rewrite H. reflexivity.
Defined.

(** C10: the updates of an exchange leave every message with another id as
    it is, change nothing but the content of a message with the target id,
    and keep the number and the positions of the messages. *)
Theorem accumulator_frame (target : jsstring) (trace : list Effect) (st : AppState) :
  length (messages (run_effects target trace st)) = length (messages st)
  /\ forall (i : nat) (msg : Message),
       nth_error (messages st) i = Some msg ->
       exists msg',
         nth_error (messages (run_effects target trace st)) i = Some msg'
         /\ role msg' = role msg /\ images msg' = images msg
         /\ timestamp msg' = timestamp msg /\ id msg' = id msg
         /\ (id msg <> target -> msg' = msg).
Proof.
  revert st. induction trace as [|e trace IH]; intros st.
  - split; [reflexivity|]. intros i msg H. exists msg. repeat split; auto.
  - cbn [run_effects fold_left].
    destruct (IH (apply_effect target st e)) as [L F]. unfold run_effects in *.
    split; [now rewrite L, apply_effect_length|].
    intros i msg H.
    destruct (apply_effect_frame target st e i msg H)
      as (m1 & H1 & R1 & I1 & T1 & D1 & K1).
    destruct (F i m1 H1) as (m2 & H2 & R2 & I2 & T2 & D2 & K2).
    exists m2. repeat split; try congruence.
    intros N. rewrite K2 by congruence. now apply K1.
Qed.

Lemma accumulator_frame_witness :
  exists msg',
    nth_error
      (messages
         (run_effects (js "1700000000001")
            [OnChunk (JStr (js "Hel")); OnError connection_lost]
            {| messages := [earlier_turn; assistantMsg one_instant];
               isLoading := true |})) 0 = Some msg'
    /\ role msg' = role earlier_turn /\ images msg' = images earlier_turn
    /\ timestamp msg' = timestamp earlier_turn /\ id msg' = id earlier_turn
    /\ (id earlier_turn <> js "1700000000001" -> msg' = earlier_turn).
Proof.
  destruct (accumulator_frame (js "1700000000001")
              [OnChunk (JStr (js "Hel")); OnError connection_lost]
              {| messages := [earlier_turn; assistantMsg one_instant];
                 isLoading := true |}) as [_ F].
  apply (F 0 earlier_turn). reflexivity.
Defined.

(* ================================================================== *)
(** * The scenarios of the specification                               *)
(* ================================================================== *)

(** A status 500 with body [model not found]: the turn, empty so far, ends
    as the annotation alone. *)
Example scenario_server_error :
  assistant_text
    (handleSendMessage (serves 500 (js "model not found") None)
                       local_settings empty_chat (js "hi") [] one_instant)
  = [line_feed; line_feed] ++ js "*[Error: Ollama Error (500): model not found]*".
Proof. reflexivity. Qed.

(** Reasoning that is still open, then closed by the next delta. *)
Example scenario_reasoning_in_progress :
  ChatBubble.segments false (js "<think>reasoning so far")
  = {| ChatBubble.reasoningText := Some (js "reasoning so far");
       ChatBubble.bodyText := [] |}
  /\ ChatBubble.segments false (js "<think>reasoning so far" ++ js "</think>final answer")
     = {| ChatBubble.reasoningText := Some (js "reasoning so far");
          ChatBubble.bodyText := js "final answer" |}.
Proof. split; reflexivity. Qed.

(* ================================================================== *)
(** * More on host normalization and the connection probe             *)
(* ================================================================== *)

Section HostFacts.

Lemma strip_final_slash_inv (p q : jsstring) :
  strip_final_slash p = q -> endsWith_slash q = true -> p = q ++ [47%N].
Proof.
  unfold strip_final_slash, endsWith_slash.
  destruct (rev p) as [|c r] eqn:R.
  - intros <-. now rewrite R.
  - destruct (c =? 47)%N eqn:C.
    + intros <- _. apply N.eqb_eq in C. subst c.
      rewrite <- (rev_involutive p), R. reflexivity.
    + intros <-. rewrite R, C. discriminate.
Qed.

Lemma with_scheme_inv (t p : jsstring) :
  with_scheme t = p -> t = p \/ js "http://" ++ t = p.
Proof. unfold with_scheme. destruct (matches_scheme t); cbn [negb]; auto. Qed.

Lemma normalizeHost_prefixed (host : jsstring) :
  startsWith (js "http:/") (normalizeHost host) = true
  \/ startsWith (js "https:/") (normalizeHost host) = true.
Proof.
  unfold normalizeHost.
  pose proof (with_scheme_matches (trim host)) as M.
  unfold matches_scheme in M. apply orb_true_iff in M as [M|M]; [left|right];
    (apply strip_keeps_prefix;
     [ apply startsWith_split in M; rewrite M; reflexivity
     | intros E; rewrite E in M; discriminate ]).
Qed.

Lemma trimStart_id (c : N) (r : jsstring) :
  isTrimSpace c = false -> trimStart (c :: r) = c :: r.
Proof. intros H. cbn [trimStart]. now rewrite H. Qed.

Lemma trim_id (c : N) (r : jsstring) :
  isTrimSpace c = false -> endsWith_space (c :: r) = false ->
  trim (c :: r) = c :: r.
Proof.
  intros H E. unfold trim. rewrite trimStart_id by assumption.
  unfold trimEnd. unfold endsWith_space in E.
  destruct (rev (c :: r)) as [|d l] eqn:R.
  - apply (f_equal (@rev N)) in R. rewrite rev_involutive in R. discriminate.
  - rewrite trimStart_id by assumption. rewrite <- R. apply rev_involutive.
Qed.

Lemma strip_final_slash_id (s : jsstring) :
  endsWith_slash s = false -> strip_final_slash s = s.
Proof.
  unfold endsWith_slash, strip_final_slash.
  destruct (rev s) as [|c r]; [reflexivity|]. now intros ->.
Qed.

(** A normal form without final slash kept its whole scheme. *)
Lemma normalized_matches (host : jsstring) :
  endsWith_slash (normalizeHost host) = false ->
  matches_scheme (normalizeHost host) = true.
Proof.
  intros E. pose proof (with_scheme_matches (trim host)) as M.
  unfold normalizeHost in *. unfold matches_scheme in *.
  apply orb_true_iff in M as [M|M].
  - rewrite strip_keeps_prefix; [reflexivity | assumption |].
    intros Q. rewrite Q in E. discriminate.
  - rewrite (strip_keeps_prefix (js "https://")); [apply orb_true_r | assumption |].
    intros Q. rewrite Q in E. discriminate.
Qed.

Lemma normalizeHost_again (host : jsstring) :
  endsWith_slash (normalizeHost host) = false ->
  endsWith_space (normalizeHost host) = false ->
  normalizeHost (normalizeHost host) = normalizeHost host.
Proof.
  intros E W. pose proof (normalized_matches host E) as M.
  assert (T : trim (normalizeHost host) = normalizeHost host).
  { destruct (normalizeHost host) as [|c r] eqn:R; [discriminate|].
    apply trim_id; [|assumption].
    destruct (normalizeHost_prefixed host) as [P|P]; rewrite R in P;
      [ change (js "http:/") with (104%N :: js "ttp:/") in P
      | change (js "https:/") with (104%N :: js "ttps:/") in P ];
      cbn [startsWith] in P; apply andb_true_iff in P as [P _];
      apply N.eqb_eq in P; now subst c. }
  unfold normalizeHost at 1. rewrite T. unfold with_scheme. rewrite M.
  cbn [negb]. now apply strip_final_slash_id.
Qed.

End HostFacts.

(** X1: the guard of [checkConnection] against a bare scheme fires exactly
    for the hosts that trim to [/], [http:///] or [https:///]. *)
Theorem bare_scheme_guard (host : jsstring) :
  bare_scheme (normalizeHost host) = true
  <-> trim host = js "/" \/ trim host = js "http:///" \/ trim host = js "https:///".
Proof.
  split.
  - unfold bare_scheme. intros H. apply orb_true_iff in H as [H|H];
      apply eqb_eq in H; unfold normalizeHost in H;
      apply strip_final_slash_inv in H; try reflexivity;
      apply with_scheme_inv in H as [H|H].
    + right; left. exact H.
    + left. change (js "http://" ++ [47%N]) with (js "http://" ++ js "/") in H.
      now apply app_inv_head in H.
    + right; right. exact H.
    + cbv in H. discriminate.
  - intros [H|[H|H]]; unfold normalizeHost; rewrite H; reflexivity.
Qed.

(** X2: a host that is blank or only a scheme is not stopped by that guard:
    its normal form has lost a slash of the scheme, and the probe requests
    [http:/] or [https:/]. *)
Theorem blank_host_is_probed (server : GetServer) (host : jsstring) :
  trim host = [] \/ trim host = js "http://" \/ trim host = js "https://" ->
  exists cleanHost,
    normalizeHost host = cleanHost
    /\ (cleanHost = js "http:/" \/ cleanHost = js "https:/")
    /\ checkConnection server host
       = match server cleanHost with
         | Resolved response => Resolved (ok response)
         | Rejected e => Rejected e
         end.
Proof.
  intros [H|[H|H]]; unfold checkConnection, normalizeHost; rewrite H;
    eexists; (split; [reflexivity|]); split; auto.
Qed.

Lemma blank_host_is_probed_witness :
  exists cleanHost,
    normalizeHost (js "  ") = cleanHost
    /\ (cleanHost = js "http:/" \/ cleanHost = js "https:/")
    /\ checkConnection (fun _ => Rejected connection_lost) (js "  ")
       = match (fun _ : jsstring => @Rejected Response connection_lost) cleanHost with
         | Resolved response => Resolved (ok response)
         | Rejected e => Rejected e
         end.
Proof.
  apply (blank_host_is_probed (fun _ => Rejected connection_lost) (js "  ")).
  left. reflexivity.
Defined.

(** X3: whatever the input, the normalized host begins with [http:/] or
    [https:/]; in particular it is never empty. *)
Theorem normalizeHost_has_scheme (host : jsstring) :
  startsWith (js "http:/") (normalizeHost host)
  || startsWith (js "https:/") (normalizeHost host) = true.
Proof.
  apply orb_true_iff. apply normalizeHost_prefixed.
Qed.

(** X4: saving the dialog and then sending a message normalizes the host
    twice.  When the saved host ends with neither a slash nor white space,
    the second pass changes nothing: the request is the one the unsaved
    settings would give. *)
Theorem saved_host_is_stable (st : SettingsDialog.DialogState)
                             (messages : list ApiMessage) :
  endsWith_slash (host (SettingsDialog.handleSave st)) = false ->
  endsWith_space (host (SettingsDialog.handleSave st)) = false ->
  normalizeHost (host (SettingsDialog.handleSave st))
  = host (SettingsDialog.handleSave st)
  /\ chat_request (SettingsDialog.handleSave st) messages
     = chat_request (SettingsDialog.localSettings st) messages.
Proof.
  intros E W.
  change (host (SettingsDialog.handleSave st))
    with (normalizeHost (host (SettingsDialog.localSettings st))) in *.
  pose proof (normalizeHost_again _ E W) as I. split; [exact I|].
  unfold chat_request.
  change (host (SettingsDialog.handleSave st))
    with (normalizeHost (host (SettingsDialog.localSettings st))).
  now rewrite I.
Qed.

Lemma saved_host_is_stable_witness :
  normalizeHost
    (host (SettingsDialog.handleSave
             {| SettingsDialog.localSettings := local_settings;
                SettingsDialog.models := [];
                SettingsDialog.isLoadingModels := false;
                SettingsDialog.connectionStatus := SettingsDialog.idle;
                SettingsDialog.errorMsg := [] |}))
  = js "http://localhost:11434".
Proof.
  pose proof (saved_host_is_stable
                {| SettingsDialog.localSettings := local_settings;
                   SettingsDialog.models := [];
                   SettingsDialog.isLoadingModels := false;
                   SettingsDialog.connectionStatus := SettingsDialog.idle;
                   SettingsDialog.errorMsg := [] |} [] eq_refl eq_refl) as [H _].
  rewrite H. reflexivity.
Defined.

(** With two slashes at the end of the input the two passes differ. *)
Example saved_host_second_pass :
  normalizeHost (js "localhost:11434//") = js "http://localhost:11434/"
  /\ normalizeHost (normalizeHost (js "localhost:11434//"))
     = js "http://localhost:11434".
Proof. split; reflexivity. Qed.

(* ================================================================== *)
(** * More on the reasoning splitter                                   *)
(* ================================================================== *)

Section SplitterFacts.
Import ChatBubble.

(** The text in front of the first occurrence holds no occurrence. *)
Lemma find_sub_before {pat s pre post : jsstring} :
  pat <> [] -> find_sub pat s = Some (pre, post) -> ~ Occurs pat pre.
Proof.
  intros Hp. revert pre. induction s as [|c s IH]; intros pre H.
  - cbn in H. destruct (startsWith pat []); [|discriminate].
    injection H as <- _. intros (x & y & E).
    destruct x; [destruct pat|]; [contradiction|discriminate..].
  - cbn [find_sub] in H. destruct (startsWith pat (c :: s)) eqn:S.
    + injection H as <- _. intros (x & y & E).
      destruct x; [destruct pat|]; [contradiction|discriminate..].
    + destruct (find_sub pat s) as [[pre' post']|] eqn:F; [|discriminate].
      injection H as <- <-. intros (x & y & E).
      destruct x as [|d x].
      * apply find_sub_sound in F. cbn [app] in E.
        assert (T : startsWith pat (c :: s) = true).
        { rewrite F, app_comm_cons, E, <- app_assoc. apply startsWith_app. }
        congruence.
      * injection E as _ E. apply (IH pre' eq_refl). now exists x, y.
Qed.

Lemma markers_nonempty : think_open <> [] /\ think_close <> [].
Proof. split; discriminate. Qed.

End SplitterFacts.

(** X5: the splitter loses nothing but the markers of the first region.
    Either the text has no opening marker and is its own body, or it is the
    body's front part, the marker, the reasoning, and then either nothing
    (the body is that front part) or the closing marker and the body's
    rest; the front part holds no opening marker. *)
Theorem splitter_conserves_text (content : jsstring) :
  let '(thinkContent, mainContent) := ChatBubble.splitThink content in
  (~ Occurs ChatBubble.think_open content
   /\ thinkContent = [] /\ mainContent = content)
  \/ (exists before after,
        content = before ++ ChatBubble.think_open ++ thinkContent
                    ++ ChatBubble.think_close ++ after
        /\ mainContent = before ++ after
        /\ ~ Occurs ChatBubble.think_open before)
  \/ (content = mainContent ++ ChatBubble.think_open ++ thinkContent
      /\ ~ Occurs ChatBubble.think_open mainContent).
Proof.
  unfold ChatBubble.splitThink, ChatBubble.thinkMatch.
  destruct (find_sub ChatBubble.think_open content) as [[before rest]|] eqn:F.
  - pose proof (find_sub_before (proj1 markers_nonempty) F) as B.
    apply find_sub_sound in F.
    destruct (find_sub ChatBubble.think_close rest) as [[inner after]|] eqn:G.
    + apply find_sub_sound in G. right; left. exists before, after.
      rewrite F, G. auto.
    + right; right. rewrite app_nil_r. auto.
  - left. repeat split. intros O. now apply find_sub_complete in O.
Qed.

(** X6: the reasoning segment never holds a closing marker. *)
Theorem reasoning_has_no_close_marker (content : jsstring) :
  ~ Occurs ChatBubble.think_close (fst (ChatBubble.splitThink content)).
Proof.
  unfold ChatBubble.splitThink, ChatBubble.thinkMatch.
  destruct (find_sub ChatBubble.think_open content) as [[before rest]|].
  - destruct (find_sub ChatBubble.think_close rest) as [[inner after]|] eqn:G;
      cbn [fst].
    + exact (find_sub_before (proj2 markers_nonempty) G).
    + intros O. now apply find_sub_complete in O.
  - cbn [fst]. intros (x & y & E). destruct x; discriminate.
Qed.

(** X7: while the reasoning is still open, the splitter takes everything
    behind the opening marker as the reasoning text and the text in front
    of the marker as the body, however the stream goes on, until a closing
    marker arrives; the reasoning block of an assistant message is the
    rendering of exactly that text, and is absent when that rendering is
    empty. *)
Theorem reasoning_in_progress (render : jsstring -> jsstring)
                              (before thinking : jsstring) :
  ~ Occurs ChatBubble.think_open before ->
  ~ Occurs ChatBubble.think_close thinking ->
  thinking <> [] ->
  ChatBubble.splitThink (before ++ ChatBubble.think_open ++ thinking)
  = (thinking, before)
  /\ BubbleView.bubbleBody assistant (before ++ ChatBubble.think_open ++ thinking)
     = before
  /\ BubbleView.reasoningBlock render assistant
       (before ++ ChatBubble.think_open ++ thinking)
     = match render thinking with
       | [] => None
       | thinkHtml => Some thinkHtml
       end.
Proof.
  intros Hb Ht Hn.
  pose proof (splitThink_unclosed before thinking Hb Ht) as S.
  split; [exact S|]. split.
  - unfold BubbleView.bubbleBody, ChatBubble.segments. now rewrite S.
  - unfold BubbleView.reasoningBlock. rewrite S. cbn [fst].
    destruct thinking; [contradiction | reflexivity].
Qed.

Lemma reasoning_in_progress_witness :
  ChatBubble.splitThink (js "Well. <think>so far</thi")
  = (js "so far</thi", js "Well. ")
  /\ BubbleView.bubbleBody assistant (js "Well. <think>so far</thi") = js "Well. "
  /\ BubbleView.reasoningBlock trim assistant (js "Well. <think>so far</thi")
     = match trim (js "so far</thi") with
       | [] => None
       | thinkHtml => Some thinkHtml
       end.
Proof.
  apply (reasoning_in_progress trim (js "Well. ") (js "so far</thi")).
  - intros H. apply find_sub_complete in H. apply H. reflexivity.
  - intros H. apply find_sub_complete in H. apply H. reflexivity.
  - discriminate.
Defined.

(** White space alone behind the marker is reasoning text to the splitter;
    a renderer that gives nothing for it leaves no block. *)
Example blank_reasoning :
  ChatBubble.splitThink (js "<think>" ++ [line_feed]) = ([line_feed], [])
  /\ BubbleView.reasoningBlock trim assistant (js "<think>" ++ [line_feed]) = None.
Proof. split; reflexivity. Qed.

(* ================================================================== *)
(** * More on the stream consumer and the model listing                *)
(* ================================================================== *)

Section ConsumerFacts.

Lemma line_effects_chunk (line : jsstring) (c : json) :
  In (OnChunk c) (line_effects line) -> truthy c = true.
Proof.
  unfold line_effects.
  destruct (blank line); [contradiction|].
  destruct (JSON_parse line) as [v|]; [|intros [H|[]]; discriminate].
  destruct (get_member v (js "message")) as [[m|]|];
    [|contradiction|intros [H|[]]; discriminate].
  destruct (truthy m); [|contradiction].
  destruct (get_member m (js "content")) as [[c'|]|];
    [|contradiction|intros [H|[]]; discriminate].
  destruct (truthy c') eqn:T; [|contradiction].
  intros [H|[]]. injection H as <-. exact T.
Qed.

Lemma read_loop_chunk (fragments : list jsstring) (ending : StreamEnd) (c : json) :
  In (OnChunk c) (read_loop fragments ending) -> truthy c = true.
Proof.
  induction fragments as [|f fs IH]; cbn [read_loop].
  - destruct ending; intros [H|[]]; discriminate.
  - intros H. apply in_app_or in H as [H|H]; [|now apply IH].
    unfold chunk_effects in H. apply in_flat_map in H as (l & _ & H).
    now apply line_effects_chunk in H.
Qed.

Lemma terminal_counted (e : Effect) (l : list Effect) :
  In e l -> is_terminal e = true -> count is_terminal l <> 0.
Proof.
  unfold count. induction l as [|x l IH]; [contradiction|].
  intros [->|H] T; cbn [filter].
  - rewrite T. discriminate.
  - destruct (is_terminal x); [discriminate | now apply IH].
Qed.

Lemma blank_spaces (line : jsstring) :
  forallb isTrimSpace line = true -> blank line = true.
Proof.
  intros H. unfold blank, trim.
  assert (T : trimStart line = []).
  { induction line as [|c l IH]; [reflexivity|]. cbn in *.
    apply andb_true_iff in H as [H1 H2]. rewrite H1. now apply IH. }
  rewrite T. reflexivity.
Qed.

Lemma split_nl_spaces (text : jsstring) :
  forallb isTrimSpace text = true ->
  Forall (fun l => forallb isTrimSpace l = true) (split_nl text).
Proof.
  induction text as [|c r IH]; intros H.
  - repeat constructor.
  - cbn [forallb] in H. apply andb_true_iff in H as [H1 H2].
    specialize (IH H2). cbn [split_nl]. destruct (c =? 10)%N.
    + constructor; [reflexivity | assumption].
    + destruct (split_nl r) as [|l ls]; [repeat constructor; cbn; now rewrite H1|].
      inversion IH; subst. constructor; [|assumption].
      cbn. now rewrite H1.
Qed.

Lemma names_of_spec (items : list json) (names : list (option json)) :
  names_of items = Returns names ->
  length names = length items
  /\ forall i m, nth_error items i = Some m ->
       m <> JNull /\ nth_error names i = Some (name_of m).
Proof.
  revert names. induction items as [|m rest IH]; intros names H.
  - injection H as <-. split; [reflexivity|]. now intros [|i].
  - cbn [names_of] in H.
    destruct (get_member m (js "name")) as [name|] eqn:G; [|discriminate].
    destruct (names_of rest) as [ns|]; [|discriminate].
    injection H as <-. destruct (IH ns eq_refl) as [L N].
    split; [cbn; now rewrite L|].
    intros [|i] m' E; cbn [nth_error] in *.
    + injection E as <-. split; [now intros -> |].
      unfold name_of. now rewrite G.
    + now apply N.
Qed.

End ConsumerFacts.

(** X8: [onChunk] is never called with a falsy value; in particular a
    record whose content is the empty string gives no call. *)
Theorem onChunk_never_falsy
  (server : Server) (settings : AppSettings) (messages : list ApiMessage)
  (c : json) :
  In (OnChunk c) (streamChat server settings messages) ->
  truthy c = true /\ c <> JStr [].
Proof.
  intros H.
  assert (T : truthy c = true).
  { unfold streamChat in H.
    destruct (server _) as [response|e]; [|destruct H as [H|[]]; discriminate].
    destruct (negb (ok response)).
    - destruct (text response); destruct H as [H|[]]; discriminate.
    - destruct (body response) as [stream|];
        [|destruct H as [H|[]]; discriminate].
      now apply read_loop_chunk in H. }
  split; [exact T|]. intros ->. discriminate.
Qed.

Lemma onChunk_never_falsy_witness :
  In (OnChunk (JStr (js "lo")))
     (streamChat (serves 200 [] (Some (hello_stream EndOfStream))) local_settings [])
  /\ truthy (JStr (js "lo")) = true /\ JStr (js "lo") <> JStr [].
Proof.
  assert (H : In (OnChunk (JStr (js "lo")))
                 (streamChat (serves 200 [] (Some (hello_stream EndOfStream)))
                             local_settings [])).
  { cbv. right. left. reflexivity. }
  split; [exact H|].
  exact (onChunk_never_falsy
           (serves 200 [] (Some (hello_stream EndOfStream))) local_settings []
           (JStr (js "lo")) H).
Defined.

(** X9: the completion callback is the last thing a run does: no chunk and
    no warning follows [onDone] or [onError]. *)
Theorem nothing_after_completion
  (server : Server) (settings : AppSettings) (messages : list ApiMessage)
  (before after : list Effect) (e : Effect) :
  streamChat server settings messages = before ++ e :: after ->
  is_terminal e = true ->
  after = [].
Proof.
  intros H T.
  destruct (streamChat_shape server settings messages)
    as (progress & final & S & _ & Z).
  rewrite S in H. destruct after as [|a after'] using rev_ind; [reflexivity|].
  exfalso. clear IHafter'.
  change (before ++ e :: after' ++ [a])
    with (before ++ (e :: after') ++ [a]) in H.
  rewrite app_assoc in H. apply app_inj_tail in H as [H _].
  apply (terminal_counted e progress); [|assumption|assumption].
  rewrite H. apply in_or_app. right. now left.
Qed.

Lemma nothing_after_completion_witness :
  streamChat (serves 200 [] (Some (hello_stream (ReadFails connection_lost))))
             local_settings []
  = [OnChunk (JStr (js "Hel")); OnChunk (JStr (js "lo"))]
      ++ OnError connection_lost :: []
  /\ is_terminal (OnError connection_lost) = true
  /\ @nil Effect = [].
Proof.
  split; [reflexivity|]. split; [reflexivity|].
  apply (nothing_after_completion
           (serves 200 [] (Some (hello_stream (ReadFails connection_lost))))
           local_settings []
           [OnChunk (JStr (js "Hel")); OnChunk (JStr (js "lo"))] []
           (OnError connection_lost));
    reflexivity.
Defined.

(** X10: chunks of white space alone, line feeds included, do nothing: no
    callback and no warning. *)
Theorem blank_chunks_ignored (fragments : list jsstring) (ending : StreamEnd) :
  Forall (fun text => forallb isTrimSpace text = true) fragments ->
  read_loop fragments ending = read_loop [] ending.
Proof.
  intros H. rewrite read_loop_unfold.
  assert (E : flat_map chunk_effects fragments = []).
  { induction H as [|text fs B _ IH]; [reflexivity|].
    cbn [flat_map]. rewrite IH, app_nil_r. unfold chunk_effects.
    pose proof (split_nl_spaces text B) as L.
    induction L as [|l ls Bl _ IHl]; [reflexivity|].
    cbn [flat_map]. rewrite IHl, app_nil_r.
    unfold line_effects. now rewrite (blank_spaces l Bl). }
  now rewrite E.
Qed.

Lemma blank_chunks_ignored_witness :
  read_loop [[line_feed]; js "  " ++ [13%N; line_feed]; [160%N]] EndOfStream = [OnDone].
Proof.
  apply (blank_chunks_ignored
           [[line_feed]; js "  " ++ [13%N; line_feed]; [160%N]] EndOfStream).
  repeat constructor.
Defined.

(** X11: [fetchModels] returns only when the server answered with a success
    status and a JSON body whose [models] is an array without [null]
    entries; the result then has one entry per model, in order, the model's
    [name].  A reply without such an array is a failure, not an empty
    list. *)
Theorem fetchModels_returns
  (server : GetServer) (host : jsstring) (names : list (option json)) :
  fetchModels server host = Returns names ->
  exists response body data items,
    server (normalizeHost host ++ js "/api/tags") = Resolved response
    /\ ok response = true
    /\ text response = Resolved body
    /\ JSON_parse body = Some data
    /\ get_member data (js "models") = Normal (Some (JArr items))
    /\ length names = length items
    /\ forall i m, nth_error items i = Some m ->
         m <> JNull /\ nth_error names i = Some (name_of m).
Proof.
  unfold fetchModels, response_json, model_names. intros H.
  destruct (server _) as [response|e] eqn:S; [|discriminate].
  destruct (ok response) eqn:O; cbn [negb] in H; [|discriminate].
  destruct (text response) as [body|e] eqn:B; [|discriminate].
  destruct (JSON_parse body) as [data|] eqn:P; [|discriminate].
  destruct (get_member data (js "models")) as [[v|]|] eqn:G; try discriminate.
  destruct v as [| | | |items|]; try discriminate.
  exists response, body, data, items.
  destruct (names_of_spec items names H) as [L N].
  repeat (split; [first [assumption | reflexivity]|]). exact N.
Qed.

Lemma fetchModels_returns_witness :
  fetchModels lists_models (js "localhost:11434")
  = Returns [Some (JStr (js "llama3:8b")); Some (JStr (js "phi3"))]
  /\ exists response body data items,
       lists_models (normalizeHost (js "localhost:11434") ++ js "/api/tags")
       = Resolved response
       /\ ok response = true
       /\ text response = Resolved body
       /\ JSON_parse body = Some data
       /\ get_member data (js "models") = Normal (Some (JArr items))
       /\ length [Some (JStr (js "llama3:8b")); Some (JStr (js "phi3"))]
          = length items
       /\ forall i m, nth_error items i = Some m ->
            m <> JNull
            /\ nth_error [Some (JStr (js "llama3:8b")); Some (JStr (js "phi3"))] i
               = Some (name_of m).
Proof.
  split; [reflexivity|].
  apply (fetchModels_returns lists_models (js "localhost:11434")). reflexivity.
Defined.

(** Replies that are no listing. *)
Example fetchModels_failures :
  fetchModels (answers 200 (jsq "{}")) (js "localhost:11434") = Fails EngineError
  /\ fetchModels (answers 200 (jsq "{'models':[null]}")) (js "localhost:11434")
     = Fails EngineError
  /\ fetchModels (answers 404 (jsq "{'models':[]}")) (js "localhost:11434")
     = Fails (Raised {| message := js "Failed to fetch models" |})
  /\ fetchModels (answers 200 (jsq "{'models':[]}")) (js "localhost:11434")
     = Returns [].
Proof. repeat split; reflexivity. Qed.

(* ================================================================== *)
(** * More on the conversation state                                   *)
(* ================================================================== *)

Section ConversationFacts.

Lemma eqb_differs {a b : jsstring} : a <> b -> JsString.eqb a b = false.
Proof.
  intros H. destruct (JsString.eqb a b) eqn:E; [|reflexivity].
  apply eqb_eq in E. contradiction.
Qed.

Lemma js_inj (s t : string) : js s = js t -> s = t.
Proof.
  unfold js. revert t. induction s as [|a s IH]; intros [|b t] H;
    cbn in H; try discriminate; [reflexivity|].
  injection H as H1 H2. f_equal; [|now apply IH].
  now rewrite <- (ascii_N_embedding a), <- (ascii_N_embedding b), H1.
Qed.

(** Two clock readings print alike only when they are equal. *)
Lemma of_Z_inj (a b : Z) : of_Z a = of_Z b -> a = b.
Proof.
  unfold of_Z. intros H. apply js_inj in H.
  assert (P : forall z, Z.to_int z <> Decimal.Pos Decimal.Nil
                        /\ Z.to_int z <> Decimal.Neg Decimal.Nil).
  { intros [|p|p]; cbn; split; try discriminate;
      intros E; injection E as E; now apply DecimalPos.Unsigned.to_uint_nonnil in E. }
  apply (f_equal NilZero.int_of_string) in H.
  rewrite !NilZero.isi in H by apply P.
  injection H as H. now apply DecimalZ.to_int_inj.
Qed.

(** On a conversation whose history and user message carry other ids, an
    update rewrites the last turn only. *)
Lemma append_to_turn (clock : Clock) (suffix answer : jsstring)
                     (history : list Message) (u : Message) :
  Forall (fun m => id m <> assistantId clock) history ->
  id u <> assistantId clock ->
  append_to (assistantId clock) suffix (history ++ [u; answered clock answer])
  = history ++ [u; answered clock (answer ++ suffix)].
Proof.
  intros F U. unfold append_to. rewrite map_app. f_equal.
  - induction F as [|m l M _ IH]; [reflexivity|].
    cbn [map]. now rewrite (eqb_differs M), IH.
  - cbn [map]. rewrite (eqb_differs U). cbn [answered id]. now rewrite eqb_refl.
Qed.

Lemma run_effects_turn (clock : Clock) (trace : list Effect) (answer : jsstring)
                       (history : list Message) (u : Message) (loading : bool) :
  Forall (fun m => id m <> assistantId clock) history ->
  id u <> assistantId clock ->
  messages (run_effects (assistantId clock) trace
              {| messages := history ++ [u; answered clock answer];
                 isLoading := loading |})
  = history ++ [u; answered clock (answer ++ List.concat (map effect_text trace))].
Proof.
  intros F U. revert answer loading.
  induction trace as [|e trace IH]; intros answer loading.
  - cbn. now rewrite app_nil_r.
  - cbn [run_effects fold_left map List.concat]. unfold run_effects in IH.
    destruct e as [chunk| |error|]; cbn [apply_effect messages effect_text];
      rewrite ?append_to_turn by assumption; rewrite IH;
      now rewrite ?app_assoc, ?app_nil_r.
Qed.

Lemma last_role_kept (target : jsstring) (st : AppState) (e : Effect) :
  match rev (messages st) with m :: _ => role m = assistant | [] => False end ->
  match rev (messages (apply_effect target st e)) with
  | m :: _ => role m = assistant
  | [] => False
  end.
Proof.
  intros H. destruct e; cbn [apply_effect messages]; try exact H;
    unfold append_to; rewrite <- map_rev;
    destruct (rev (messages st)) as [|m r]; try contradiction;
    cbn [map]; destruct (JsString.eqb (id m) target); exact H.
Qed.

(** The last message stays an assistant turn without images. *)
Lemma last_turn_kept (target : jsstring) (trace : list Effect) (st : AppState) :
  match rev (messages st) with
  | m :: _ => role m = assistant /\ images m = None
  | [] => False
  end ->
  match rev (messages (run_effects target trace st)) with
  | m :: _ => role m = assistant /\ images m = None
  | [] => False
  end.
Proof.
  revert st. induction trace as [|e trace IH]; intros st H; [exact H|].
  cbn [run_effects fold_left]. apply IH.
  destruct e; cbn [apply_effect messages]; try exact H;
    unfold append_to; rewrite <- map_rev;
    destruct (rev (messages st)) as [|m r]; try contradiction;
    cbn [map]; destruct (JsString.eqb (id m) target); exact H.
Qed.

Lemma terminal_clears (target : jsstring) (st : AppState) (e : Effect) :
  is_terminal e = true -> isLoading (apply_effect target st e) = false.
Proof. destruct e; cbn; congruence. Qed.

End ConversationFacts.

(** X12: whatever the server does, [handleSendMessage] ends with
    [isLoading] reset. *)
Theorem loading_cleared
  (server : Server) (settings : AppSettings) (st : AppState)
  (input : jsstring) (imgs : list jsstring) (clock : Clock) :
  isLoading (handleSendMessage server settings st input imgs clock) = false.
Proof.
  unfold handleSendMessage, exchange.
  destruct (streamChat_shape server settings
              (apiMessages settings st input imgs clock))
    as (progress & final & -> & T & _).
  unfold run_effects. rewrite fold_left_app. cbn [fold_left].
  now apply terminal_clears.
Qed.

(** X13: when no earlier message carries the id of the new assistant turn
    and the clock did not run backwards between the two id readings, the
    exchange leaves the history as it was, stores the user's message as
    sent, and adds one assistant turn and nothing else; when the chunks it
    received were strings, that turn holds them and the error annotation,
    if any, in the order of their arrival. *)
Theorem exchange_writes_its_turn_only
  (server : Server) (settings : AppSettings) (st : AppState)
  (input : jsstring) (imgs : list jsstring) (clock : Clock) :
  Forall (fun m => id m <> assistantId clock) (messages st) ->
  (now2 clock <= now3 clock)%Z ->
  exists answer,
    messages (handleSendMessage server settings st input imgs clock)
    = messages st ++ [userMsg input imgs clock; answered clock answer]
    /\ (Forall string_chunk (exchange server settings st input imgs clock) ->
        answer
        = List.concat (map effect_text
                         (exchange server settings st input imgs clock))).
Proof.
  intros F C.
  exists (List.concat (map effect_text
                         (exchange server settings st input imgs clock))).
  split; [|reflexivity].
  unfold handleSendMessage, newMessages.
  change (assistantMsg clock) with (answered clock []).
  rewrite run_effects_turn; [reflexivity | assumption |].
  cbn [userMsg id]. unfold assistantId. intros E. apply of_Z_inj in E. lia.
Qed.

Lemma exchange_writes_its_turn_only_witness :
  exists answer,
    messages (handleSendMessage (serves 200 [] (Some (hello_stream EndOfStream)))
                local_settings
                {| messages := [earlier_turn]; isLoading := false |}
                (js " hi ") [js "aGk="] one_instant)
    = [earlier_turn]
        ++ [userMsg (js " hi ") [js "aGk="] one_instant;
            answered one_instant answer]
    /\ (Forall string_chunk
          (exchange (serves 200 [] (Some (hello_stream EndOfStream)))
             local_settings {| messages := [earlier_turn]; isLoading := false |}
             (js " hi ") [js "aGk="] one_instant) ->
        answer
        = List.concat
            (map effect_text
               (exchange (serves 200 [] (Some (hello_stream EndOfStream)))
                  local_settings
                  {| messages := [earlier_turn]; isLoading := false |}
                  (js " hi ") [js "aGk="] one_instant))).
Proof.
  apply (exchange_writes_its_turn_only
           (serves 200 [] (Some (hello_stream EndOfStream))) local_settings
           {| messages := [earlier_turn]; isLoading := false |}
           (js " hi ") [js "aGk="] one_instant).
  - repeat constructor. cbv. discriminate.
  - cbv. discriminate.
Defined.

(** That exchange: its chunks are strings, and the conversation after it. *)
Example exchange_of_strings :
  Forall string_chunk
    (exchange (serves 200 [] (Some (hello_stream EndOfStream)))
       local_settings {| messages := [earlier_turn]; isLoading := false |}
       (js " hi ") [js "aGk="] one_instant)
  /\ messages (handleSendMessage (serves 200 [] (Some (hello_stream EndOfStream)))
                 local_settings
                 {| messages := [earlier_turn]; isLoading := false |}
                 (js " hi ") [js "aGk="] one_instant)
     = [ earlier_turn;
         {| role := user; content := js " hi "; images := Some [js "aGk="];
            timestamp := 1700000000000; id := js "1700000000000" |};
         {| role := assistant; content := js "Hello"; images := None;
            timestamp := 1700000000000; id := js "1700000000001" |} ].
Proof. split; [|reflexivity]. cbv. repeat constructor. Qed.

(** When the clock steps back by one millisecond between the two readings,
    the user's message gets the id of the assistant turn and receives the
    answer as well. *)
Example clock_step_back :
  map content
      (messages (handleSendMessage (serves 200 [] (Some (hello_stream EndOfStream)))
                   local_settings empty_chat (js "hi") []
                   {| now1 := 1700000000001; now2 := 1700000000001;
                      now3 := 1700000000000; now4 := 1700000000000 |}))
  = [js "hiHello"; js "Hello"].
Proof. reflexivity. Qed.

(** X14: at no moment of an exchange are the typing dots rendered: the new
    assistant turn is the last message from the start, and the dots need a
    last message of another role. *)
Theorem typing_dots_never_shown
  (st : AppState) (input : jsstring) (imgs : list jsstring) (clock : Clock)
  (seen : list Effect) :
  AppView.typingDots
    (run_effects (assistantId clock) seen
       {| messages := newMessages st input imgs clock; isLoading := true |})
  = false.
Proof.
  assert (I : forall trace s,
             match rev (messages s) with m :: _ => role m = assistant | [] => False end ->
             match rev (messages (run_effects (assistantId clock) trace s)) with
             | m :: _ => role m = assistant
             | [] => False
             end).
  { induction trace as [|e trace IH]; intros s H; [exact H|].
    cbn [run_effects fold_left]. apply IH. now apply last_role_kept. }
  specialize (I seen {| messages := newMessages st input imgs clock;
                        isLoading := true |}).
  unfold AppView.typingDots.
  destruct (rev (messages (run_effects _ seen _))) as [|m r].
  - reflexivity.
  - rewrite I; [apply andb_false_r|].
    cbn [messages]. unfold newMessages. rewrite rev_app_distr. reflexivity.
Qed.

(** X15: during an exchange the content of a message only grows at its
    end: each message afterwards holds what it held before, followed by
    what was appended. *)
Theorem content_only_grows (target : jsstring) (trace : list Effect) (st : AppState) :
  forall (i : nat) (msg : Message),
    nth_error (messages st) i = Some msg ->
    exists msg' appended,
      nth_error (messages (run_effects target trace st)) i = Some msg'
      /\ content msg' = content msg ++ appended.
Proof.
  revert st. induction trace as [|e trace IH]; intros st i msg H.
  - exists msg, []. now rewrite app_nil_r.
  - cbn [run_effects fold_left].
    assert (S : exists m1 a1,
               nth_error (messages (apply_effect target st e)) i = Some m1
               /\ content m1 = content msg ++ a1).
    { destruct e as [chunk| |error|]; cbn [apply_effect messages];
        try (exists msg, []; now rewrite app_nil_r).
      - destruct (append_to_nth target (ToString chunk) _ _ _ H)
          as (m & Hm & _ & _ & _ & _ & Hne & Heq).
        destruct (JsString.eqb (id msg) target) eqn:E.
        + apply eqb_eq in E. exists m, (ToString chunk). auto.
        + exists m, []. split; [assumption|]. rewrite Hne, app_nil_r; auto.
          intros K. rewrite K, eqb_refl in E. discriminate.
      - destruct (append_to_nth target (error_annotation error) _ _ _ H)
          as (m & Hm & _ & _ & _ & _ & Hne & Heq).
        destruct (JsString.eqb (id msg) target) eqn:E.
        + apply eqb_eq in E. exists m, (error_annotation error). auto.
        + exists m, []. split; [assumption|]. rewrite Hne, app_nil_r; auto.
          intros K. rewrite K, eqb_refl in E. discriminate. }
    destruct S as (m1 & a1 & H1 & C1).
    destruct (IH (apply_effect target st e) i m1 H1) as (m2 & a2 & H2 & C2).
    exists m2, (a1 ++ a2). split; [exact H2|]. now rewrite C2, C1, app_assoc.
Qed.

Lemma content_only_grows_witness :
  exists msg' appended,
    nth_error
      (messages
         (run_effects (js "1700000000001")
            [OnChunk (JStr (js "Hel")); OnError connection_lost]
            {| messages := [earlier_turn; assistantMsg one_instant];
               isLoading := true |})) 1 = Some msg'
    /\ content msg' = content (assistantMsg one_instant) ++ appended.
Proof.
  apply (content_only_grows (js "1700000000001")
           [OnChunk (JStr (js "Hel")); OnError connection_lost]
           {| messages := [earlier_turn; assistantMsg one_instant];
              isLoading := true |} 1 (assistantMsg one_instant)).
  reflexivity.
Defined.

(* ================================================================== *)
(** * The settings dialog and the image strip                          *)
(* ================================================================== *)

Section DialogFacts.
Import SettingsDialog.

Lemma failure_text_nonempty (pageProtocol host : jsstring) (err : Caught) :
  failure_text pageProtocol host err <> [].
Proof.
  unfold failure_text.
  destruct (_ && _); [discriminate|].
  destruct (_ && _); [destruct (JsString.eqb _ _); discriminate|].
  destruct (caught_message err); discriminate.
Qed.

Lemma listed_In (fetchedModels : list jsstring) (name : jsstring) :
  listed fetchedModels name = true <-> In name fetchedModels.
Proof.
  unfold listed. rewrite existsb_exists. split.
  - intros (x & I & E). apply eqb_eq in E. now subst.
  - intros I. exists name. split; [assumption | apply eqb_refl].
Qed.

End DialogFacts.

Section ImageFacts.
Import InputArea.

Lemma filter_from_spec (A : Type) (index : nat) (prev : list A) (k : nat) :
  filter_from (fun _ i => negb (Nat.eqb i index)) k prev
  = if Nat.ltb index k then prev
    else firstn (index - k) prev ++ skipn (S (index - k)) prev.
Proof.
  revert k. induction prev as [|x rest IH]; intros k.
  - destruct (Nat.ltb index k); [reflexivity|].
    now rewrite firstn_nil, skipn_nil.
  - cbn [filter_from]. rewrite IH.
    destruct (Nat.ltb_spec index k) as [L|L].
    + destruct (Nat.eqb_spec k index) as [E|E]; [lia|]. cbn [negb].
      destruct (Nat.ltb_spec index (S k)); [reflexivity | lia].
    + destruct (Nat.eqb_spec k index) as [E|E]; cbn [negb].
      * subst. rewrite Nat.sub_diag.
        destruct (Nat.ltb_spec index (S index)); [reflexivity | lia].
      * destruct (Nat.ltb_spec index (S k)); [lia|].
        replace (index - k) with (S (index - S k)) by lia. reflexivity.
Qed.

End ImageFacts.

(** X16: every run of [handleCheckConnection] ends with the spinner off and
    a verdict: success exactly when the probe resolved to [true], with an
    empty message; otherwise an error with a message that is not empty.
    The host and the system prompt being edited are not touched. *)
Theorem check_connection_verdict
  (pageProtocol : jsstring) (st : SettingsDialog.DialogState)
  (host0 : jsstring) (fetchList : bool)
  (connection : SettingsDialog.Awaited bool)
  (listing : SettingsDialog.Awaited (list jsstring)) :
  let st' := SettingsDialog.handleCheckConnection pageProtocol st host0 fetchList
               connection listing in
  SettingsDialog.isLoadingModels st' = false
  /\ (connection = SettingsDialog.Fulfilled true ->
      SettingsDialog.connectionStatus st' = SettingsDialog.success
      /\ SettingsDialog.errorMsg st' = [])
  /\ (connection <> SettingsDialog.Fulfilled true ->
      SettingsDialog.connectionStatus st' = SettingsDialog.error
      /\ SettingsDialog.errorMsg st' <> [])
  /\ host (SettingsDialog.localSettings st') = host (SettingsDialog.localSettings st)
  /\ systemPrompt (SettingsDialog.localSettings st')
     = systemPrompt (SettingsDialog.localSettings st).
Proof.
  unfold SettingsDialog.handleCheckConnection.
  destruct connection as [[|]|err]; cbn zeta.
  - destruct fetchList; [destruct listing as [fetched|]|];
      (split; [reflexivity|]); (split; [now intros _|]);
      (split; [now intros C|]);
      try (split; reflexivity).
    cbn. destruct fetched as [|first rest]; [now split|].
    destruct (negb _); now split.
  - split; [reflexivity|]. split; [discriminate|].
    split; [intros _; split; [reflexivity | discriminate]|]. now split.
  - split; [reflexivity|]. split; [discriminate|].
    split; [intros _; split; [reflexivity | apply failure_text_nonempty]|].
    now split.
Qed.

Lemma check_connection_verdict_witness :
  SettingsDialog.connectionStatus
    (SettingsDialog.handleCheckConnection (js "https:") fresh_dialog
       (js "http://localhost:11434") true
       (SettingsDialog.Thrown {| SettingsDialog.caught_message := js "Failed to fetch";
                                 SettingsDialog.caught_name := js "TypeError" |})
       (SettingsDialog.Fulfilled [])) = SettingsDialog.error
  /\ SettingsDialog.errorMsg
       (SettingsDialog.handleCheckConnection (js "https:") fresh_dialog
          (js "http://localhost:11434") true
          (SettingsDialog.Thrown {| SettingsDialog.caught_message := js "Failed to fetch";
                                    SettingsDialog.caught_name := js "TypeError" |})
          (SettingsDialog.Fulfilled [])) <> [].
Proof.
  destruct (check_connection_verdict (js "https:") fresh_dialog
              (js "http://localhost:11434") true
              (SettingsDialog.Thrown {| SettingsDialog.caught_message := js "Failed to fetch";
                                        SettingsDialog.caught_name := js "TypeError" |})
              (SettingsDialog.Fulfilled [])) as (_ & _ & H & _).
  apply H. discriminate.
Defined.

(** X17: after a refresh that reached the server and listed at least one
    model, the list is stored and the selected model is one of the listed
    models: the one selected before if it is listed, the first of the list
    otherwise. *)
Theorem refresh_selects_listed_model
  (pageProtocol : jsstring) (st : SettingsDialog.DialogState)
  (host0 : jsstring) (fetchedModels : list jsstring) :
  fetchedModels <> [] ->
  let st' := SettingsDialog.handleCheckConnection pageProtocol st host0 true
               (SettingsDialog.Fulfilled true)
               (SettingsDialog.Fulfilled fetchedModels) in
  SettingsDialog.models st' = fetchedModels
  /\ In (selectedModel (SettingsDialog.localSettings st')) fetchedModels
  /\ (In (selectedModel (SettingsDialog.localSettings st)) fetchedModels ->
      SettingsDialog.localSettings st' = SettingsDialog.localSettings st)
  /\ (~ In (selectedModel (SettingsDialog.localSettings st)) fetchedModels ->
      Some (selectedModel (SettingsDialog.localSettings st')) = hd_error fetchedModels).
Proof.
  intros N. destruct fetchedModels as [|first rest]; [contradiction|].
  cbn zeta. unfold SettingsDialog.handleCheckConnection.
  cbn [SettingsDialog.with_status SettingsDialog.store_models
       SettingsDialog.localSettings SettingsDialog.models
       SettingsDialog.connectionStatus SettingsDialog.errorMsg].
  destruct (SettingsDialog.listed (first :: rest)
              (selectedModel (SettingsDialog.localSettings st))) eqn:L;
    cbn [negb].
  - apply listed_In in L.
    split; [reflexivity|]. split; [exact L|]. split; [reflexivity|].
    intros K. contradiction.
  - split; [reflexivity|]. split; [now left|]. split; [|reflexivity].
    intros K. apply listed_In in K. congruence.
Qed.

Lemma refresh_selects_listed_model_witness :
  SettingsDialog.localSettings
    (SettingsDialog.handleCheckConnection (js "http:") fresh_dialog
       (js "localhost:11434") true (SettingsDialog.Fulfilled true)
       (SettingsDialog.Fulfilled [js "phi3"; js "mistral"]))
  = {| host := js "localhost:11434"; selectedModel := js "phi3";
       systemPrompt := js "You are a helpful AI assistant." |}
  /\ In (js "phi3") [js "phi3"; js "mistral"].
Proof.
  split; [reflexivity|].
  assert (N : [js "phi3"; js "mistral"] <> []) by discriminate.
  pose proof (refresh_selects_listed_model (js "http:") fresh_dialog
                (js "localhost:11434") [js "phi3"; js "mistral"] N) as H.
  cbv zeta in H. destruct H as (_ & H & _). exact H.
Defined.

(** X18: [removeImage(index)] removes the image at that position and keeps
    the others in order; an index past the end removes nothing. *)
Theorem removeImage_removes_one (A : Type) (index : nat) (prev : list A) :
  InputArea.removeImage index prev = firstn index prev ++ skipn (S index) prev
  /\ (index < length prev ->
      S (length (InputArea.removeImage index prev)) = length prev)
  /\ (length prev <= index -> InputArea.removeImage index prev = prev).
Proof.
  assert (E : InputArea.removeImage index prev
              = firstn index prev ++ skipn (S index) prev).
  { unfold InputArea.removeImage. rewrite filter_from_spec.
    cbn [Nat.ltb Nat.leb]. now rewrite Nat.sub_0_r. }
  split; [exact E|]. rewrite E. split; intros L.
  - rewrite length_app, length_firstn, length_skipn. lia.
  - rewrite firstn_all2, skipn_all2 by lia. apply app_nil_r.
Qed.

Lemma removeImage_removes_one_witness :
  S (length (InputArea.removeImage 1 [js "a"; js "b"; js "c"])) = 3
  /\ InputArea.removeImage 1 [js "a"; js "b"; js "c"] = [js "a"; js "c"]
  /\ InputArea.removeImage 3 [js "a"; js "b"; js "c"] = [js "a"; js "b"; js "c"].
Proof.
  destruct (removeImage_removes_one jsstring 1 [js "a"; js "b"; js "c"])
    as (_ & H & _).
  split; [apply H; cbn; lia|]. split; reflexivity.
Defined.

(* ================================================================== *)
(** * Line endings                                                     *)
(* ================================================================== *)

Section LineEndings.

Lemma json_space_cases (w : N) :
  isJsonSpace w = true -> w = 9%N \/ w = 10%N \/ w = 13%N \/ w = 32%N.
Proof.
  unfold isJsonSpace. intros H.
  repeat (apply orb_true_iff in H as [H|H]); apply N.eqb_eq in H; auto.
Qed.

Lemma json_space_is_trim_space (w : N) :
  isJsonSpace w = true -> isTrimSpace w = true.
Proof.
  intros H. destruct (json_space_cases w H) as [-> | [-> | [-> | ->]]]; reflexivity.
Qed.

Lemma start_step_word (c : N) (st : lex_state) (toks : list token) :
  start_step c = Some (st, toks) -> settled_word st.
Proof.
  unfold start_step.
  repeat match goal with
         | |- (if ?b then _ else _) = _ -> _ => destruct b
         end;
    intros H; try discriminate; injection H as <- _; cbn;
    try exact I; repeat constructor.
Qed.

Lemma lex_step_word (st st' : lex_state) (c : N) (toks : list token) :
  settled_word st -> lex_step st c = Some (st', toks) -> settled_word st'.
Proof.
  intros W. destruct st as [|acc|acc|acc seen code|acc nst|expected v];
    cbn [lex_step].
  - apply start_step_word.
  - repeat match goal with
           | |- (if ?b then _ else _) = _ -> _ => destruct b
           end; intros H; try discriminate; injection H as <- _; exact I.
  - unfold escape_step.
    repeat match goal with
           | |- match (if ?b then _ else _) with _ => _ end = _ -> _ => destruct b
           end; intros H; try discriminate; injection H as <- _; exact I.
  - destruct (hexValue c); [|discriminate].
    destruct (Nat.eqb seen 3); intros H; injection H as <- _; exact I.
  - destruct (num_step nst c) as [[nst'|]|]; [| |discriminate].
    + intros H. injection H as <- _. exact I.
    + destruct (start_step c) as [[s1 t1]|] eqn:S; [|discriminate].
      intros H. injection H as <- _. now apply start_step_word in S.
  - destruct expected as [|x rest]; [discriminate|].
    destruct (c =? x)%N; [|discriminate].
    destruct rest; intros H; injection H as <- _; [exact I|].
    cbn in W |- *. now apply Forall_inv_tail in W.
Qed.

(** White space at the end of the input changes no token. *)
Lemma lex_space_last (st : lex_state) (w : N) :
  isJsonSpace w = true -> settled_word st ->
  lex_from st [w] = lex_finish st.
Proof.
  intros H W. cbn [lex_from].
  destruct st as [|acc|acc|acc seen code|acc nst|expected v].
  - cbn [lex_step]. unfold start_step. now rewrite H.
  - destruct (json_space_cases w H) as [-> | [-> | [-> | ->]]]; reflexivity.
  - destruct (json_space_cases w H) as [-> | [-> | [-> | ->]]]; reflexivity.
  - destruct (json_space_cases w H) as [-> | [-> | [-> | ->]]]; reflexivity.
  - cbn [lex_step].
    assert (S : start_step w = Some (LStart, [])).
    { unfold start_step. now rewrite H. }
    destruct (json_space_cases w H) as [-> | [-> | [-> | ->]]];
      destruct nst; cbn [num_step]; cbn; reflexivity.
  - cbn [lex_step lex_finish]. destruct expected as [|x rest]; [reflexivity|].
    cbn in W. apply Forall_inv in W.
    destruct (N.eqb_spec w x) as [->|]; [congruence | reflexivity].
Qed.

Lemma lex_space_suffix (s : jsstring) (st : lex_state) (w : N) :
  isJsonSpace w = true -> settled_word st ->
  lex_from st (s ++ [w]) = lex_from st s.
Proof.
  intros H. revert st. induction s as [|c r IH]; intros st W.
  - now apply lex_space_last.
  - cbn [app lex_from].
    destruct (lex_step st c) as [[st' toks]|] eqn:S; [|reflexivity].
    rewrite IH; [reflexivity|]. exact (lex_step_word st st' c toks W S).
Qed.

Lemma JSON_parse_space_suffix (s : jsstring) (w : N) :
  isJsonSpace w = true -> JSON_parse (s ++ [w]) = JSON_parse s.
Proof.
  intros H. unfold JSON_parse. now rewrite lex_space_suffix by (auto; exact I).
Qed.

Lemma trimStart_spaces (s : jsstring) :
  forallb isTrimSpace s = false -> trimStart s <> [].
Proof.
  induction s as [|c r IH]; [discriminate|]. cbn.
  destruct (isTrimSpace c); [exact IH | discriminate].
Qed.

Lemma trimStart_sublist (s : jsstring) :
  forallb isTrimSpace (trimStart s) = forallb isTrimSpace s.
Proof.
  induction s as [|c r IH]; [reflexivity|]. cbn.
  destruct (isTrimSpace c) eqn:C; [exact IH|]. cbn. now rewrite C.
Qed.

Lemma forallb_reversed (f : N -> bool) (l : jsstring) :
  forallb f (rev l) = forallb f l.
Proof.
  induction l as [|c r IH]; [reflexivity|].
  cbn [rev forallb]. rewrite forallb_app, IH. cbn. now rewrite andb_true_r, andb_comm.
Qed.

(** A line is blank exactly when all of it is white space. *)
Lemma blank_forallb (s : jsstring) : blank s = forallb isTrimSpace s.
Proof.
  destruct (forallb isTrimSpace s) eqn:F; [now apply blank_spaces|].
  unfold blank, trim, trimEnd.
  assert (R : forallb isTrimSpace (rev (trimStart s)) = false).
  { rewrite forallb_reversed, trimStart_sublist. exact F. }
  apply trimStart_spaces in R.
  destruct (trimStart (rev (trimStart s))) as [|c r]; [contradiction|].
  destruct (rev (c :: r)) eqn:E; [|reflexivity].
  apply (f_equal (@rev N)) in E. rewrite rev_involutive in E. discriminate.
Qed.

Lemma no_line_feed_cr (lines : list jsstring) :
  forallb no_line_feed (map (fun l => l ++ [carriage_return]) lines)
  = forallb no_line_feed lines.
Proof.
  induction lines as [|l rest IH]; [reflexivity|].
  cbn [map forallb]. rewrite IH. f_equal.
  unfold no_line_feed. rewrite forallb_app. cbn. apply andb_true_r.
Qed.

End LineEndings.

(** X19: a line with JSON white space at its end, such as the carriage
    return of a CR LF line ending, is processed like the line without it;
    so a body whose lines end with CR LF gives the effects of the same body
    with plain line feeds. *)
Theorem carriage_returns_tolerated :
  (forall line w, isJsonSpace w = true ->
     line_effects (line ++ [w]) = line_effects line)
  /\ forall lines,
       forallb no_line_feed lines = true ->
       chunk_effects (join_lines (map (fun l => l ++ [carriage_return]) lines))
       = chunk_effects (join_lines lines).
Proof.
  assert (L : forall line w, isJsonSpace w = true ->
                line_effects (line ++ [w]) = line_effects line).
  { intros line w H. unfold line_effects.
    rewrite JSON_parse_space_suffix by assumption.
    rewrite !blank_forallb, forallb_app. cbn [forallb].
    rewrite (json_space_is_trim_space w H). cbn [andb]. now rewrite andb_true_r. }
  split; [exact L|]. intros lines H.
  destruct lines as [|l0 rest]; [reflexivity|].
  unfold chunk_effects. rewrite !split_nl_join; try discriminate; try assumption.
  - rewrite flat_map_concat_map, map_map, <- flat_map_concat_map.
    apply flat_map_ext. intros l. now apply L.
  - now rewrite no_line_feed_cr.
Qed.

Lemma carriage_returns_tolerated_witness :
  chunk_effects
    (join_lines (map (fun l => l ++ [carriage_return])
                     [jsq "{'message':{'content':'Hel'}}";
                      jsq "{'message':{'content':'lo'}}"; []]))
  = [OnChunk (JStr (js "Hel")); OnChunk (JStr (js "lo"))].
Proof.
  destruct carriage_returns_tolerated as [_ H].
  rewrite (H [jsq "{'message':{'content':'Hel'}}";
              jsq "{'message':{'content':'lo'}}"; []] eq_refl).
  reflexivity.
Defined.

(* ================================================================== *)
(** * Across exchanges and in the bubble                               *)
(* ================================================================== *)

(** X20: whatever text the assistant turn holds after an exchange goes back
    to the model word for word as an assistant message of the next request;
    after an exchange that ended with an error, that text ends with the
    error annotation. *)
Theorem answer_is_sent_back
  (server : Server) (settings : AppSettings) (st : AppState)
  (input : jsstring) (imgs : list jsstring) (clock : Clock)
  (settings' : AppSettings) (input' : jsstring) (imgs' : list jsstring)
  (clock' : Clock) :
  In {| api_role := js "assistant";
        api_content :=
          assistant_text (handleSendMessage server settings st input imgs clock);
        api_images := None |}
     (apiMessages settings'
        (handleSendMessage server settings st input imgs clock)
        input' imgs' clock')
  /\ forall progress error,
       exchange server settings st input imgs clock = progress ++ [OnError error] ->
       exists kept,
         assistant_text (handleSendMessage server settings st input imgs clock)
         = kept ++ error_annotation error.
Proof.
  split.
  - pose proof (last_turn_kept (assistantId clock)
                  (exchange server settings st input imgs clock)
                  {| messages := newMessages st input imgs clock;
                     isLoading := true |}) as K.
    fold (handleSendMessage server settings st input imgs clock) in K.
    unfold assistant_text.
    destruct (rev (messages (handleSendMessage server settings st input imgs clock)))
      as [|m r] eqn:R.
    + exfalso. apply K. cbn [messages]. unfold newMessages.
      rewrite rev_app_distr. now split.
    + destruct K as [Kr Ki].
      { cbn [messages]. unfold newMessages. rewrite rev_app_distr. now split. }
      assert (I : In (to_api m)
                     (map to_api
                        (messages (handleSendMessage server settings st input imgs clock)
                           ++ [userMsg input' imgs' clock']))).
      { apply in_map. apply in_or_app. left. apply in_rev. rewrite R. now left. }
      unfold to_api in I at 1. rewrite Kr, Ki in I. cbn [role_name] in I.
      unfold apiMessages. destruct (systemPrompt settings'); [exact I | right; exact I].
  - intros progress error H. rewrite handleSendMessage_text, H.
    exists (List.concat (map effect_text progress)).
    rewrite map_app, concat_app. cbn. now rewrite app_nil_r.
Qed.

Lemma answer_is_sent_back_witness :
  exchange (serves 200 [] (Some (hello_stream (ReadFails connection_lost))))
           local_settings empty_chat (js "hi") [] one_instant
  = [OnChunk (JStr (js "Hel")); OnChunk (JStr (js "lo"))] ++ [OnError connection_lost]
  /\ exists kept,
       assistant_text
         (handleSendMessage
            (serves 200 [] (Some (hello_stream (ReadFails connection_lost))))
            local_settings empty_chat (js "hi") [] one_instant)
       = kept ++ error_annotation connection_lost.
Proof.
  split; [reflexivity|].
  destruct (answer_is_sent_back
              (serves 200 [] (Some (hello_stream (ReadFails connection_lost))))
              local_settings empty_chat (js "hi") [] one_instant
              local_settings (js "again") [] one_instant) as [_ H].
  apply (H [OnChunk (JStr (js "Hel")); OnChunk (JStr (js "lo"))] connection_lost).
  reflexivity.
Defined.

(** The request that follows that failed exchange. *)
Example request_after_failure :
  map api_content
      (apiMessages local_settings
         (handleSendMessage
            (serves 200 [] (Some (hello_stream (ReadFails connection_lost))))
            local_settings empty_chat (js "hi") [] one_instant)
         (js "again") [] one_instant)
  = [ js "You are a helpful AI assistant."; js "hi";
      js "Hello" ++ [line_feed; line_feed] ++ js "*[Error: network error]*";
      js "again" ].
Proof. reflexivity. Qed.

(** X21: in a user's own message a reasoning region is cut out of the body
    like in an answer, but no reasoning block is rendered for a user: the
    text between the markers is shown nowhere. *)
Theorem user_reasoning_is_dropped (render : jsstring -> jsstring)
                                  (before inner after : jsstring) :
  ~ Occurs ChatBubble.think_open before ->
  ~ Occurs ChatBubble.think_close inner ->
  BubbleView.bubbleBody user
    (before ++ ChatBubble.think_open ++ inner ++ ChatBubble.think_close ++ after)
  = before ++ after
  /\ BubbleView.reasoningBlock render user
       (before ++ ChatBubble.think_open ++ inner ++ ChatBubble.think_close ++ after)
     = None.
Proof.
  intros Hb Hi. split; [|reflexivity].
  unfold BubbleView.bubbleBody, ChatBubble.segments.
  now rewrite splitThink_closed.
Qed.

Lemma user_reasoning_is_dropped_witness :
  BubbleView.bubbleBody user (js "What does <think>x</think> mean?")
  = js "What does  mean?"
  /\ BubbleView.reasoningBlock trim user (js "What does <think>x</think> mean?")
     = None.
Proof.
  apply (user_reasoning_is_dropped trim (js "What does ") (js "x") (js " mean?"));
    intros H; apply find_sub_complete in H; apply H; reflexivity.
Defined.
